(** * Tourist-spot server: request handlers of [index.js]

    A shallow embedding of the Express application of [src/index.js]
    (the version with session tokens, lines 1-363) and the properties of
    its request handlers.

    The application talks to three collaborators it does not implement:
    the MongoDB collection ([collection.find], [findOne], [insertOne],
    [deleteOne], [updateOne]), the Cloudinary uploader ([destroy]) and the
    [jsonwebtoken] library ([sign], [verify]).  The collection is an
    in-memory list of documents with MongoDB's documented behaviour on the
    [_id] field; the uploader and the token library are oracles of a
    [services] record.  Every call to the collection and to the uploader
    is recorded, in order, in the [log] of the world. *)

From Stdlib Require Import List String Ascii ZArith NArith Bool Lia.
Import ListNotations.
Open Scope string_scope.
Open Scope list_scope.

Set Warnings "-register-all".

(** ** JavaScript values *)

(** The values the handlers move around: parsed JSON bodies, the objects
    they build, BSON documents (JSON plus [ObjectId]).  Numbers are kept
    as integers, no handler computes with them.  An object is the list of
    its own properties in insertion order. *)
Inductive value : Type :=
| JUndefined
| JNull
| JBool (b : bool)
| JNum (n : Z)
| JStr (s : string)
| JOid (hex : string)
| JArr (items : list value)
| JObj (fields : list (string * value)).

(** [!v] is [negb (truthy v)]: undefined, null, false, 0 and the empty
    string are falsy, every object is truthy. *)
Definition truthy (v : value) : bool :=
  match v with
  | JUndefined | JNull => false
  | JBool b => b
  | JNum n => negb (n =? 0)%Z
  | JStr s => negb (s =? "")
  | JOid _ | JArr _ | JObj _ => true
  end.

(** Structural equality, the equality MongoDB uses to match a filter
    value against a stored one (field order matters in embedded
    documents). *)
Fixpoint value_eqb (a b : value) {struct a} : bool :=
  match a, b with
  | JUndefined, JUndefined => true
  | JNull, JNull => true
  | JBool x, JBool y => Bool.eqb x y
  | JNum x, JNum y => (x =? y)%Z
  | JStr x, JStr y => (x =? y)
  | JOid x, JOid y => (x =? y)
  | JArr xs, JArr ys =>
      (fix go (xs ys : list value) {struct xs} : bool :=
         match xs, ys with
         | [], [] => true
         | x :: xs', y :: ys' => value_eqb x y && go xs' ys'
         | _, _ => false
         end) xs ys
  | JObj fs, JObj gs =>
      (fix go (fs gs : list (string * value)) {struct fs} : bool :=
         match fs, gs with
         | [], [] => true
         | (k, x) :: fs', (l, y) :: gs' =>
             (k =? l) && value_eqb x y && go fs' gs'
         | _, _ => false
         end) fs gs
  | _, _ => false
  end.

(** [o.k] and [o?.k] on a value that is not null or undefined: the first
    property named [k], [undefined] when there is none or when [o] is not
    an object. *)
Fixpoint lookup (k : string) (fs : list (string * value)) : option value :=
  match fs with
  | [] => None
  | (l, v) :: fs' => if k =? l then Some v else lookup k fs'
  end.

Definition get (k : string) (o : value) : value :=
  match o with
  | JObj fs => match lookup k fs with Some v => v | None => JUndefined end
  | _ => JUndefined
  end.

(** [o.k = v]: an existing property keeps its place, a new one goes
    last. *)
Fixpoint set_field (k : string) (v : value) (fs : list (string * value))
  : list (string * value) :=
  match fs with
  | [] => [(k, v)]
  | (l, x) :: fs' =>
      if k =? l then (l, v) :: fs' else (l, x) :: set_field k v fs'
  end.

(** An object literal [{k1: v1, ..., kn: vn}]: properties are defined from
    left to right, a repeated key overwrites the earlier value. *)
Definition obj_fields (kvs : list (string * value)) : list (string * value) :=
  fold_left (fun fs kv => set_field (fst kv) (snd kv) fs) kvs [].

Definition obj (kvs : list (string * value)) : value := JObj (obj_fields kvs).

Definition keys (fs : list (string * value)) : list string := map fst fs.

(** ** ObjectId *)

Definition is_hex (c : ascii) : bool :=
  let n := nat_of_ascii c in
  (((48 <=? n) && (n <=? 57)) || ((97 <=? n) && (n <=? 102))
   || ((65 <=? n) && (n <=? 70)))%nat.

Definition lower (c : ascii) : ascii :=
  let n := nat_of_ascii c in
  if ((65 <=? n) && (n <=? 90))%nat then ascii_of_nat (n + 32) else c.

Fixpoint all_hex (s : string) : bool :=
  match s with
  | EmptyString => true
  | String c s' => is_hex c && all_hex s'
  end.

Fixpoint lowercase (s : string) : string :=
  match s with
  | EmptyString => EmptyString
  | String c s' => String (lower c) (lowercase s')
  end.

(** [new ObjectId(id)] on a string: a string of 24 hexadecimal digits is
    the identifier it spells (kept in lower case, as [toHexString] prints
    it); the constructor throws on any other string. *)
Definition ObjectId (id : string) : option value :=
  if (String.length id =? 24)%nat && all_hex id
  then Some (JOid (lowercase id)) else None.

Definition hex_digit (d : N) : ascii :=
  nth (N.to_nat d) (list_ascii_of_string "0123456789abcdef") "0"%char.

Fixpoint hex_of (width : nat) (n : N) (acc : string) : string :=
  match width with
  | O => acc
  | S w => hex_of w (n / 16)%N (String (hex_digit (n mod 16)%N) acc)
  end.

(** The identifier the driver generates for a document inserted without
    one: the 24 digits of a counter of the world. *)
Definition createPk (counter : N) : value := JOid (hex_of 24 counter "").

(** What a client reads in a response for an identifier, and puts in the
    path of its next request. *)
Definition toHexString (v : value) : string :=
  match v with
  | JOid h => h
  | JStr s => s
  | _ => ""
  end.

(** ** The world: the collection and the log of the calls *)

Definition doc : Type := list (string * value).

Inductive event : Type :=
| DbFind (filter : value)
| DbFindOne (filter : value)
| DbInsertOne (document : value)
| DbDeleteOne (filter : value)
| DbUpdateOne (filter update : value)
| CloudDestroy (public_id : value).

Record world : Type := mkWorld {
  collection : list doc;
  pk_counter : N;
  log : list event
}.

Definition error : Type := string.

Inductive result (A : Type) : Type :=
| Ok (a : A)
| Throw (e : error).
Arguments Ok {A} a.
Arguments Throw {A} e.

(** The oracles of the two libraries the handlers call:
    [jwt.sign(payload, JWT_ACCESS_SECRET, {expiresIn: "1h"})] returns a
    token or throws, [jwt.verify(token, JWT_ACCESS_SECRET, cb)] hands
    [cb] an error or the decoded payload, and
    [cloudinary.uploader.destroy(public_id)] resolves or rejects. *)
Record services : Type := mkServices {
  jwt_sign : value -> result string;
  jwt_verify : value -> result value;
  cloud_destroy : value -> result value
}.

(** A computation that awaits calls on the world and may throw. *)
Definition M (A : Type) : Type := world -> result A * world.

Definition ret {A} (a : A) : M A := fun w => (Ok a, w).

Definition throw {A} (e : error) : M A := fun w => (Throw e, w).

Definition bind {A B} (m : M A) (k : A -> M B) : M B :=
  fun w => match m w with
           | (Ok a, w') => k a w'
           | (Throw e, w') => (Throw e, w')
           end.

Notation "x <- m ;; k" := (bind m (fun x => k))
  (at level 61, m at next level, right associativity).
Notation "m ;;; k" := (bind m (fun _ => k))
  (at level 61, right associativity).

Definition record (e : event) (w : world) : world :=
  mkWorld (collection w) (pk_counter w) (log w ++ [e]).

(** ** The collection *)

(** A condition [k: v] of a filter holds of a stored value equal to [v],
    and of a stored array with an element equal to [v].  The second case
    does not arise for [_id]: the collection holds no document with an
    array as [_id] ([insertOne] refuses it). *)
Definition field_matches (k : string) (stored v : value) : bool :=
  value_eqb stored v
  || (negb (k =? "_id")
      && match stored with
         | JArr items => existsb (fun x => value_eqb x v) items
         | _ => false
         end).

(** A filter [{k: v}] selects the documents whose field [k] satisfies
    the condition; the empty filter selects every document. *)
Definition matches (filter : value) (d : doc) : bool :=
  match filter with
  | JObj conds =>
      forallb (fun kv => match lookup (fst kv) d with
                         | Some x => field_matches (fst kv) x (snd kv)
                         | None => false
                         end) conds
  | _ => true
  end.

Definition nullish (v : value) : bool :=
  match v with JUndefined | JNull => true | _ => false end.

Fixpoint remove_field (k : string) (fs : list (string * value))
  : list (string * value) :=
  match fs with
  | [] => []
  | (l, x) :: fs' =>
      if k =? l then remove_field k fs' else (l, x) :: remove_field k fs'
  end.

(** [collection.find(filter).toArray()]. *)
Definition find (filter : value) : M (list value) :=
  fun w => (Ok (map JObj (List.filter (matches filter) (collection w))),
            record (DbFind filter) w).

(** [collection.findOne(filter)]: the first match, or [null]. *)
Definition first_match (filter : value) (c : list doc) : value :=
  match List.find (matches filter) c with
  | Some d => JObj d
  | None => JNull
  end.

Definition findOne (filter : value) : M value :=
  fun w => (Ok (first_match filter (collection w)),
            record (DbFindOne filter) w).

Definition has_id (id : value) (d : doc) : bool :=
  match lookup "_id" d with
  | Some x => value_eqb x id
  | None => false
  end.

Definition is_array (v : value) : bool :=
  match v with
  | JArr _ => true
  | _ => false
  end.

(** [collection.insertOne(document)]: a document without [_id] gets a
    generated one, a document with [_id] keeps it; the collection refuses
    a second document with the same [_id], and a document whose [_id] is
    an array.  The stored document has [_id] first.  The result is
    [{acknowledged, insertedId}]. *)
Definition insertOne (document : value) : M value :=
  fun w =>
    let w1 := record (DbInsertOne document) w in
    match document with
    | JObj fs =>
        let given := get "_id" document in
        let id := if nullish given then createPk (pk_counter w) else given in
        let counter := if nullish given then (pk_counter w + 1)%N
                       else pk_counter w in
        if existsb (has_id id) (collection w)
        then (Throw "E11000 duplicate key error", w1)
        else if is_array id
        then (Throw "The _id value cannot be of type array", w1)
        else (Ok (obj [("acknowledged", JBool true); ("insertedId", id)]),
              mkWorld (collection w ++ [("_id", id) :: remove_field "_id" fs])
                      counter (log w1))
    | _ => (Throw "document is not an object", w1)
    end.

(** [collection.deleteOne(filter)]: removes the first match.  The result
    is [{acknowledged, deletedCount}]. *)
Fixpoint remove_first (filter : value) (c : list doc) : list doc * Z :=
  match c with
  | [] => ([], 0%Z)
  | d :: c' =>
      if matches filter d then (c', 1%Z)
      else let (r, n) := remove_first filter c' in (d :: r, n)
  end.

Definition deleteOne (filter : value) : M value :=
  fun w =>
    let (c', n) := remove_first filter (collection w) in
    (Ok (obj [("acknowledged", JBool true); ("deletedCount", JNum n)]),
     mkWorld c' (pk_counter w) (log w ++ [DbDeleteOne filter])).

(** What the driver writes for a value it is handed in [$set]: the
    client is created without [ignoreUndefined], so a JS [undefined] is
    written as [null]; the values of a parsed body hold no [undefined]
    and are written as they are. *)
Definition stored_as (v : value) : value :=
  match v with
  | JUndefined => JNull
  | _ => v
  end.

(** [collection.updateOne(filter, {$set: fields})]: every listed field of
    the first match is assigned the listed value, as the driver writes
    it.  [modifiedCount] counts the document only when the assignment
    changed it.  The result is [{acknowledged, matchedCount,
    modifiedCount}]. *)
Definition apply_set (update : value) (d : doc) : doc :=
  match get "$set" update with
  | JObj fields =>
      fold_left (fun d' kv => set_field (fst kv) (stored_as (snd kv)) d')
        fields d
  | _ => d
  end.

Fixpoint update_first (filter update : value) (c : list doc)
  : list doc * (Z * Z) :=
  match c with
  | [] => ([], (0%Z, 0%Z))
  | d :: c' =>
      if matches filter d then
        let d' := apply_set update d in
        (d' :: c', (1%Z, if value_eqb (JObj d') (JObj d) then 0%Z else 1%Z))
      else
        let (r, n) := update_first filter update c' in (d :: r, n)
  end.

Definition updateOne (filter update : value) : M value :=
  fun w =>
    let (c', n) := update_first filter update (collection w) in
    (Ok (obj [("acknowledged", JBool true); ("matchedCount", JNum (fst n));
              ("modifiedCount", JNum (snd n))]),
     mkWorld c' (pk_counter w) (log w ++ [DbUpdateOne filter update])).

(** [cloudinary.uploader.destroy(public_id)]. *)
Definition destroy (sv : services) (public_id : value) : M value :=
  fun w => (cloud_destroy sv public_id, record (CloudDestroy public_id) w).

(** [new ObjectId(id)] inside a [try] block. *)
Definition new_ObjectId (id : string) : M value :=
  match ObjectId id with
  | Some o => ret o
  | None => throw "BSONError: input must be a 24 character hex string"
  end.

(** ** Requests, responses *)

Inductive http_method : Type := GET | POST | PATCH | DELETE.

(** A request after the body and cookie parsers: the segments of its
    path, [req.body] and [req.cookies].  The segments are what stands
    between the slashes of the path: none for [/], and a last empty one
    when the path ends with a slash; a segment that a route takes as a
    parameter is the value [req.params] has for it. *)
Record request : Type := mkRequest {
  method : http_method;
  path : list string;
  body : value;
  cookies : value
}.

Inductive cookie_op : Type :=
| NoCookie
| SetCookie (name token : string) (options : value)
| ClearCookie (name : string) (options : value).

Record response : Type := mkResponse {
  status : nat;
  res_body : value;
  cookie : cookie_op
}.

(** How a handler ends: it answers, it hands an error to [next], it
    returns without answering, or it throws outside of any [try]. *)
Inductive outcome : Type :=
| Responded (r : response)
| NextErr (e : error)
| NoResponse
| Uncaught (e : error)
| NotRouted.

Definition handler : Type := world -> outcome * world.

(** [res.status(s).json(b)] and [res.status(s).send(b)]. *)
Definition json (s : nat) (b : value) : outcome :=
  Responded (mkResponse s b NoCookie).

Definition respond (s : nat) (b : value) : handler := fun w => (json s b, w).

(** [try { ... } catch (err) { next(err); }]. *)
Definition try_next (m : M outcome) : handler :=
  fun w => match m w with
           | (Ok o, w') => (o, w')
           | (Throw e, w') => (NextErr e, w')
           end.

(** ** Auth related API *)

(** [app.post("/jwt", ...)]. *)
Definition post_jwt (sv : services) (req : request) : handler :=
  fun w =>
    let user := body req in
    if negb (truthy user) then
      (json 401 (obj [("success", JBool false);
                      ("message", JStr "Verified email not found!")]), w)
    else
      match jwt_sign sv user with
      | Ok token =>
          if negb (truthy (JStr token)) then
            (json 401 (obj [("success", JBool false);
                            ("message", JStr "jwt token generate failed")]), w)
          else
            (Responded
               (mkResponse 200 (obj [("success", JBool true)])
                  (SetCookie "token" token
                     (obj [("httpOnly", JBool true); ("secure", JBool true);
                           ("sameSite", JStr "none")]))), w)
      | Throw err => (NoResponse, w)
      end.

(** [app.post("/jwt-logout", ...)]. *)
Definition post_jwt_logout : handler :=
  fun w =>
    (Responded
       (mkResponse 200 (obj [("success", JBool true)])
          (ClearCookie "token"
             (obj [("maxAge", JNum 0); ("httpOnly", JBool true);
                   ("secure", JBool true); ("sameSite", JStr "none")]))), w).

(** [verifyToken]: [next] receives the decoded payload, which the
    middleware stores in [req.user]. *)
Definition verifyToken (sv : services) (req : request)
    (next : value -> handler) : handler :=
  let token := get "token" (cookies req) in
  if negb (truthy token) then
    respond 403
      (obj [("success", JBool false);
            ("message", JStr "Unauthorized access. Please login to continue")])
  else
    match jwt_verify sv token with
    | Throw err =>
        respond 403 (obj [("success", JBool false);
                          ("message", JStr "Access forbidden")])
    | Ok decoded => next decoded
    end.

(** ** Tourist spot API *)

(** [app.get("/", ...)]. *)
Definition get_root : handler :=
  respond 200 (JStr "Tourists server is running ...").

(** [app.get("/tourist-spot", ...)]. *)
Definition get_tourist_spots : handler :=
  try_next (
    data <- find (obj []) ;;
    if (List.length data =? 0)%nat then
      ret (json 404 (obj [("success", JBool false);
                          ("message", JStr "No data found")]))
    else
      ret (json 200 (obj [("success", JBool true); ("data", JArr data)]))).

(** [email !== verifiedUser] with [email] a string. *)
Definition strict_eq_string (s : string) (v : value) : bool :=
  match v with
  | JStr t => s =? t
  | _ => false
  end.

(** [app.get("/tourist-spot/user/:email", verifyToken, ...)], after
    [verifyToken]: [user] is [req.user]. *)
Definition get_user_tourist_spots (email : string) (user : value) : handler :=
  let verifiedUser := get "user" user in
  if negb (truthy (JStr email)) then
    respond 400 (obj [("success", JBool false);
                      ("message", JStr "Email parameter is required.")])
  else if negb (strict_eq_string email verifiedUser) then
    respond 403 (obj [("success", JBool false);
                      ("message", JStr "Access forbidden")])
  else
    try_next (
      let query := obj [("userEmail", JStr email)] in
      data <- find query ;;
      if (List.length data =? 0)%nat then
        ret (json 404
               (obj [("success", JBool false);
                     ("message", JStr "No data found for the provided email.")]))
      else
        ret (json 200 (obj [("success", JBool true); ("data", JArr data)]))).

(** [app.get("/tourist-spot/:id", ...)]. *)
Definition get_tourist_spot (id : string) : handler :=
  try_next (
    oid <- new_ObjectId id ;;
    data <- findOne (obj [("_id", oid)]) ;;
    if negb (truthy data) then
      ret (json 404 (obj [("success", JBool false);
                          ("message", JStr "No data found")]))
    else
      ret (json 200 (obj [("success", JBool true); ("data", data)]))).

(** [app.post("/tourist-spot", ...)]. *)
Definition post_tourist_spot (req : request) : handler :=
  let touristData := body req in
  try_next (
    newData <- insertOne touristData ;;
    if negb (truthy (get "insertedId" newData)) then
      ret (json 500 (obj [("success", JBool false);
                          ("message", JStr "Failed to add new tourist spot")]))
    else
      ret (json 201 (obj [("success", JBool true);
                          ("message", JStr "Tourist spot added successfully");
                          ("id", get "insertedId" newData)]))).

(** [app.delete("/tourist-spot/:id", ...)]. *)
Definition delete_tourist_spot (sv : services) (id : string) : handler :=
  try_next (
    oid <- new_ObjectId id ;;
    let filter := obj [("_id", oid)] in
    tourist_spot <- findOne filter ;;
    let public_id := get "public_id" (get "imgHostingInfo" tourist_spot) in
    (if truthy public_id then destroy sv public_id else ret JUndefined) ;;;
    data <- deleteOne filter ;;
    if negb (truthy (get "deletedCount" data)) then
      ret (json 404 (obj [("success", JBool false);
                          ("success", JStr "No data found to delete")]))
    else
      ret (json 200 (obj [("success", JBool true);
                          ("message", JStr "Tourist spot deleted successfully")]))).

(** The fields the update handler always writes. *)
Definition editable_fields : list string :=
  ["spot_name"; "country_name"; "location"; "details"; "average_cost";
   "seasonality"; "travel_time"; "total_visitors_per_year"].

Definition set_prop (k : string) (v o : value) : value :=
  match o with
  | JObj fs => JObj (set_field k v fs)
  | _ => o
  end.

(** The object the update handler builds for [$set] from the body. *)
Definition updateFields (updateInfo : value) : value :=
  let spot_name := get "spot_name" updateInfo in
  let country_name := get "country_name" updateInfo in
  let location := get "location" updateInfo in
  let details := get "details" updateInfo in
  let average_cost := get "average_cost" updateInfo in
  let seasonality := get "seasonality" updateInfo in
  let travel_time := get "travel_time" updateInfo in
  let total_visitors_per_year := get "total_visitors_per_year" updateInfo in
  let imgHostingInfo := get "imgHostingInfo" updateInfo in
  let fields :=
    obj [("spot_name", spot_name); ("country_name", country_name);
         ("location", location); ("details", details);
         ("average_cost", average_cost); ("seasonality", seasonality);
         ("travel_time", travel_time);
         ("total_visitors_per_year", total_visitors_per_year)] in
  if truthy imgHostingInfo
  then set_prop "imgHostingInfo" imgHostingInfo fields
  else fields.

(** [app.patch("/tourist-spot/:id", ...)].  The destructuring of the body
    is outside the [try]: it throws on a body that is null or
    undefined. *)
Definition patch_tourist_spot (sv : services) (id : string) (req : request)
  : handler :=
  let updateInfo := body req in
  if nullish updateInfo then
    fun w => (Uncaught "TypeError: cannot destructure the body", w)
  else
    let ex_public_id := get "ex_public_id" updateInfo in
    try_next (
      oid <- new_ObjectId id ;;
      let filter := obj [("_id", oid)] in
      let updateDoc := obj [("$set", updateFields updateInfo)] in
      (if truthy ex_public_id then destroy sv ex_public_id
       else ret JUndefined) ;;;
      dataUpdateRes <- updateOne filter updateDoc ;;
      if negb (truthy (get "modifiedCount" dataUpdateRes)) then
        ret (json 500
               (obj [("success", JBool false);
                     ("message", JStr "Failed to update this document data")]))
      else
        ret (json 200
               (obj [("success", JBool true);
                     ("message", JStr "Tourist spot updated successfully")]))).

(** ** Routing *)

Inductive endpoint : Type :=
| EpJwt
| EpJwtLogout
| EpRoot
| EpListAll
| EpListByOwner (email : string)
| EpGetById (id : string)
| EpCreate
| EpDelete (id : string)
| EpUpdate (id : string).

(** A segment spells the literal [lit] of a route (written in lower
    case): Express compares without regard to the case of the letters. *)
Definition seg_is (lit a : string) : bool := lowercase a =? lit.

(** Express ignores one slash at the end of a path: the last segment of
    a path of two segments or more is dropped when it is empty. *)
Fixpoint strip_slash (p : list string) : list string :=
  match p with
  | [] => []
  | a :: q =>
      match q with
      | [] => [a]
      | [b] => if b =? "" then [a] else [a; b]
      | _ => a :: strip_slash q
      end
  end.

(** The routes in the order the application registers them.  A route
    parameter ([:email], [:id]) matches one segment that is not empty. *)
Definition route (m : http_method) (p : list string) : option endpoint :=
  match m, strip_slash p with
  | POST, [a] =>
      if seg_is "jwt" a then Some EpJwt
      else if seg_is "jwt-logout" a then Some EpJwtLogout
      else if seg_is "tourist-spot" a then Some EpCreate
      else None
  | GET, [] => Some EpRoot
  | GET, [a] => if seg_is "tourist-spot" a then Some EpListAll else None
  | GET, [a; b; c] =>
      if seg_is "tourist-spot" a && seg_is "user" b && negb (c =? "")
      then Some (EpListByOwner c) else None
  | GET, [a; b] =>
      if seg_is "tourist-spot" a && negb (b =? "")
      then Some (EpGetById b) else None
  | DELETE, [a; b] =>
      if seg_is "tourist-spot" a && negb (b =? "")
      then Some (EpDelete b) else None
  | PATCH, [a; b] =>
      if seg_is "tourist-spot" a && negb (b =? "")
      then Some (EpUpdate b) else None
  | _, _ => None
  end.

Definition handle (sv : services) (ep : endpoint) (req : request) : handler :=
  match ep with
  | EpJwt => post_jwt sv req
  | EpJwtLogout => post_jwt_logout
  | EpRoot => get_root
  | EpListAll => get_tourist_spots
  | EpListByOwner email =>
      verifyToken sv req (fun user => get_user_tourist_spots email user)
  | EpGetById id => get_tourist_spot id
  | EpCreate => post_tourist_spot req
  | EpDelete id => delete_tourist_spot sv id
  | EpUpdate id => patch_tourist_spot sv id req
  end.

(** The route table of the application: one request that the middleware
    before the routes (body and cookie parsers, rate limiter) let
    through, from the world before to the outcome of its handler and the
    world after.  What Express answers after [next(err)], or when no
    route matches, is not part of it. *)
Definition app (sv : services) (req : request) : handler :=
  match route (method req) (path req) with
  | Some ep => handle sv ep req
  | None => fun w => (NotRouted, w)
  end.

(** The world after a sequence of requests. *)
Fixpoint run (sv : services) (reqs : list request) (w : world) : world :=
  match reqs with
  | [] => w
  | req :: reqs' => run sv reqs' (snd (app sv req w))
  end.

(** The asset cleanup of an update does not fail: there is no
    [ex_public_id] to destroy, or [destroy] resolves. *)
Definition cleanup_ok (sv : services) (updateInfo : value) : bool :=
  let ex_public_id := get "ex_public_id" updateInfo in
  negb (truthy ex_public_id)
  || match cloud_destroy sv ex_public_id with
     | Ok _ => true
     | Throw _ => false
     end.

Definition fields_of (o : value) : list (string * value) :=
  match o with
  | JObj fs => fs
  | _ => []
  end.

(** The fields of a [$set], as the driver writes them. *)
Definition stored_fields (fields : list (string * value))
  : list (string * value) :=
  map (fun kv => (fst kv, stored_as (snd kv))) fields.

(** No two documents of the collection have the same [_id]. *)
Definition unique_ids (c : list doc) : Prop := NoDup (map (lookup "_id") c).

(** ** Sample services, worlds and requests *)

(** A token library that signs an object payload as ["jwt:"] followed by
    its [user], and throws on a payload that is not an object or that
    carries [exp] (the handler asks for [expiresIn] as well). *)
Definition sample_sign (payload : value) : result string :=
  match payload with
  | JObj fs =>
      match lookup "exp" fs with
      | Some _ => Throw "Bad options.expiresIn: the payload already has exp"
      | None =>
          match get "user" payload with
          | JStr u => Ok ("jwt:" ++ u)%string
          | _ => Ok "jwt:"
          end
      end
  | _ => Throw "Expected payload to be a plain object"
  end.

Definition sample_verify (token : value) : result value :=
  match token with
  | JStr (String "j" (String "w" (String "t" (String ":" u)))) =>
      Ok (obj [("user", JStr u)])
  | _ => Throw "JsonWebTokenError: invalid token"
  end.

Definition sample_services : services :=
  mkServices sample_sign sample_verify
    (fun _ => Ok (obj [("result", JStr "ok")])).

(** The same, with an asset store that cannot be reached. *)
Definition unreachable_cloud : services :=
  mkServices sample_sign sample_verify
    (fun _ => Throw "cloudinary: request failed").

Definition empty_world : world := mkWorld [] 0 [].

Definition reef_id : string := "000000000000000000000000".

Definition reef : doc :=
  [("_id", JOid reef_id); ("spot_name", JStr "Reef");
   ("userEmail", JStr "a@x.com");
   ("imgHostingInfo",
    JObj [("url", JStr "https://img.example/reef.png");
          ("public_id", JStr "img123")])].

Definition reef_world : world := mkWorld [reef] 1 [].

Definition session (token : string) : value := obj [("token", JStr token)].

(** A body with the eight editable fields, and a world whose only
    document holds exactly those values. *)
Definition lagoon_fields : list (string * value) :=
  [("spot_name", JStr "Lagoon"); ("country_name", JStr "Palau");
   ("location", JStr "Koror"); ("details", JStr "Rock islands");
   ("average_cost", JNum 900); ("seasonality", JStr "dry");
   ("travel_time", JStr "7 days"); ("total_visitors_per_year", JNum 12000)].

Definition lagoon_world : world :=
  mkWorld [("_id", JOid reef_id) :: ("userEmail", JStr "a@x.com")
           :: lagoon_fields] 1 [].

(** ** The owner listing before session tokens *)

(** [app.get("/tourist-spot/user/:email", ...)] of the earlier version of
    the file (lines 464-496): no [verifyToken] before it and no
    comparison with [req.user]. *)
Definition get_user_tourist_spots_unguarded (email : string) : handler :=
  if negb (truthy (JStr email)) then
    respond 400 (obj [("success", JBool false);
                      ("message", JStr "Email parameter is required.")])
  else
    try_next (
      let query := obj [("userEmail", JStr email)] in
      data <- find query ;;
      if (List.length data =? 0)%nat then
        ret (json 404
               (obj [("success", JBool false);
                     ("message", JStr "No data found for the provided email.")]))
      else
        ret (json 200 (obj [("success", JBool true); ("data", JArr data)]))).

(** ** Vocabulary of the further properties *)

(** The same request with other cookies. *)
Definition with_cookies (req : request) (c : value) : request :=
  mkRequest (method req) (path req) (body req) c.

Definition is_string (s : string) (v : value) : bool :=
  match v with
  | JStr t => t =? s
  | _ => false
  end.

(** The documents the owner listing is about: [userEmail] is the string
    [email], or an array that has it. *)
Definition owned_by (email : string) (d : doc) : bool :=
  match lookup "userEmail" d with
  | Some (JStr t) => t =? email
  | Some (JArr items) => existsb (is_string email) items
  | _ => false
  end.

(** [tourist_spot?.imgHostingInfo?.public_id]. *)
Definition stored_public_id (tourist_spot : value) : value :=
  get "public_id" (get "imgHostingInfo" tourist_spot).

(** The asset cleanup of a deletion does not fail: the document has no
    truthy [public_id], or [destroy] resolves. *)
Definition delete_cleanup_ok (sv : services) (tourist_spot : value) : bool :=
  negb (truthy (stored_public_id tourist_spot))
  || match cloud_destroy sv (stored_public_id tourist_spot) with
     | Ok _ => true
     | Throw _ => false
     end.

(** The envelope of a response: [success] is a boolean, [true] exactly
    on a status below 300. *)
Definition success_matches_status (r : response) : bool :=
  match get "success" (res_body r) with
  | JBool b => Bool.eqb b (status r <? 300)%nat
  | _ => false
  end.

Definition status_of (o : outcome) : option nat :=
  match o with
  | Responded r => Some (status r)
  | _ => None
  end.

(** The handler answered, or handed an error to [next]. *)
Definition concluded (o : outcome) : bool :=
  match o with
  | Responded _ | NextErr _ => true
  | _ => false
  end.

Definition sets_no_cookie (o : outcome) : bool :=
  match o with
  | Responded r => match cookie r with NoCookie => true | _ => false end
  | _ => true
  end.

(** The calls that only read the collection. *)
Definition is_read (e : event) : bool :=
  match e with
  | DbFind _ | DbFindOne _ => true
  | _ => false
  end.

(** From [w] to [w'] the collection was at most read, once. *)
Definition reads_only (w w' : world) : Prop :=
  collection w' = collection w /\ pk_counter w' = pk_counter w
  /\ exists l, log w' = log w ++ l /\ List.length l <= 1
               /\ forallb is_read l = true.



(** A world with the reef of one owner and a dune of another. *)
Definition dune : doc :=
  [("_id", JOid "000000000000000000000001"); ("spot_name", JStr "Dune");
   ("userEmail", JStr "b@x.com")].

Definition coast_world : world := mkWorld [reef; dune] 2 [].

(** * Properties *)

(** ** Values and objects *)

Lemma value_ind_nested (P : value -> Prop) :
  P JUndefined -> P JNull -> (forall b, P (JBool b)) -> (forall n, P (JNum n)) ->
  (forall s, P (JStr s)) -> (forall h, P (JOid h)) ->
  (forall items, Forall P items -> P (JArr items)) ->
  (forall fields, Forall (fun kv => P (snd kv)) fields -> P (JObj fields)) ->
  forall v, P v.
Proof.
  intros Hu Hn Hb Hz Hs Ho Ha Hf.
  fix IH 1.
  intros [ | | b | n | s | h | items | fields].
  - exact Hu.
  - exact Hn.
  - apply Hb.
  - apply Hz.
  - apply Hs.
  - apply Ho.
  - apply Ha. induction items as [|x xs IHxs]; constructor.
    + apply IH.
    + exact IHxs.
  - apply Hf. induction fields as [|[k x] fs IHfs]; constructor.
    + apply IH.
    + exact IHfs.
Qed.

Lemma value_eqb_refl (v : value) : value_eqb v v = true.
Proof.
  induction v as [ | | b | n | s | h | items IH | fields IH]
    using value_ind_nested; simpl;
    auto using Bool.eqb_reflx, Z.eqb_refl, String.eqb_refl.
  - induction IH as [|x xs Hx _ IHxs]; [reflexivity|].
    rewrite Hx. exact IHxs.
  - induction IH as [|[k x] fs Hx _ IHfs]; [reflexivity|].
    simpl in Hx. rewrite String.eqb_refl, Hx. exact IHfs.
Qed.

Lemma value_eqb_eq (a b : value) : value_eqb a b = true -> a = b.
Proof.
  revert b.
  induction a as [ | | x | x | x | x | items IH | fields IH]
    using value_ind_nested; intros [ | | y | y | y | y | ys | gs];
    simpl; try discriminate; auto.
  - intros H. apply Bool.eqb_prop in H. now subst.
  - intros H. apply Z.eqb_eq in H. now subst.
  - intros H. apply String.eqb_eq in H. now subst.
  - intros H. apply String.eqb_eq in H. now subst.
  - revert ys. induction IH as [|x xs Hx _ IHxs]; intros [|y ys];
      try discriminate; auto.
    intros H. apply andb_prop in H. destruct H as [H1 H2].
    apply Hx in H1. apply IHxs in H2. injection H2 as ->. now subst.
  - revert gs. induction IH as [|[k x] fs Hx _ IHfs]; intros [|[l y] gs];
      try discriminate; auto.
    intros H. apply andb_prop in H. destruct H as [H H3].
    apply andb_prop in H. destruct H as [H1 H2].
    apply String.eqb_eq in H1. apply Hx in H2. apply IHfs in H3.
    injection H3 as ->. simpl in H2. now subst.
Qed.

Lemma lookup_set_field_eq (k : string) (v : value) (fs : list (string * value)) :
  lookup k (set_field k v fs) = Some v.
Proof.
  induction fs as [|[l x] fs IH]; simpl.
  - now rewrite String.eqb_refl.
  - destruct (k =? l) eqn:E; simpl; rewrite E; auto.
Qed.

Lemma lookup_set_field_ne (k k' : string) (v : value)
    (fs : list (string * value)) :
  k' <> k -> lookup k' (set_field k v fs) = lookup k' fs.
Proof.
  intros Hne. induction fs as [|[l x] fs IH]; simpl.
  - destruct (k' =? k) eqn:E; auto. apply String.eqb_eq in E. contradiction.
  - destruct (k =? l) eqn:E; simpl.
    + apply String.eqb_eq in E. subst l.
      destruct (k' =? k) eqn:E'; auto.
      apply String.eqb_eq in E'. contradiction.
    + now rewrite IH.
Qed.

(** Assigning a list of fields leaves every field that is not listed. *)
Lemma lookup_assign_other (k : string) (kvs d : list (string * value)) :
  ~ In k (keys kvs) ->
  lookup k (fold_left (fun d' kv => set_field (fst kv) (snd kv) d') kvs d)
  = lookup k d.
Proof.
  revert d. induction kvs as [|[l v] kvs IH]; intros d Hk; simpl; auto.
  simpl in Hk. rewrite IH by tauto.
  apply lookup_set_field_ne. intros ->. tauto.
Qed.

(** Assigning a list of fields with distinct keys gives each listed field
    its listed value. *)
Lemma lookup_assign_listed (k : string) (kvs d : list (string * value)) :
  NoDup (keys kvs) -> In k (keys kvs) ->
  lookup k (fold_left (fun d' kv => set_field (fst kv) (snd kv) d') kvs d)
  = lookup k kvs.
Proof.
  revert d. induction kvs as [|[l v] kvs IH]; intros d Hnd Hk; simpl in *.
  - contradiction.
  - inversion Hnd as [|? ? Hl Hnd']; subst.
    destruct (k =? l) eqn:E.
    + apply String.eqb_eq in E. subst l.
      rewrite lookup_assign_other by assumption.
      apply lookup_set_field_eq.
    + apply IH; auto. destruct Hk as [->|Hk]; auto.
      rewrite String.eqb_refl in E. discriminate.
Qed.

(** ** ObjectId *)

Lemma hex_digit_ok (d : N) :
  (d < 16)%N -> is_hex (hex_digit d) = true /\ lower (hex_digit d) = hex_digit d.
Proof.
  intros Hd. unfold hex_digit.
  assert (Hn : N.to_nat d < 16) by lia.
  remember (N.to_nat d) as n eqn:En. clear En Hd.
  do 16 (destruct n as [|n]; [split; reflexivity|]).
  lia.
Qed.

Lemma hex_of_length (w : nat) (n : N) (acc : string) :
  String.length (hex_of w n acc) = w + String.length acc.
Proof.
  revert n acc. induction w as [|w IH]; intros n acc; simpl; auto.
  rewrite IH. simpl. lia.
Qed.

Lemma hex_of_all_hex (w : nat) (n : N) (acc : string) :
  all_hex acc = true -> all_hex (hex_of w n acc) = true.
Proof.
  revert n acc. induction w as [|w IH]; intros n acc Hacc; simpl; auto.
  apply IH. simpl. rewrite Hacc.
  destruct (hex_digit_ok (n mod 16)%N) as [-> _]; auto.
  apply N.mod_lt. discriminate.
Qed.

Lemma hex_of_lowercase (w : nat) (n : N) (acc : string) :
  lowercase acc = acc -> lowercase (hex_of w n acc) = hex_of w n acc.
Proof.
  revert n acc. induction w as [|w IH]; intros n acc Hacc; simpl; auto.
  apply IH. simpl. rewrite Hacc.
  destruct (hex_digit_ok (n mod 16)%N) as [_ ->]; auto.
  apply N.mod_lt. discriminate.
Qed.

(** A generated identifier, printed and parsed again, is itself. *)
Lemma ObjectId_createPk (n : N) :
  ObjectId (toHexString (createPk n)) = Some (createPk n).
Proof.
  unfold createPk, toHexString, ObjectId.
  rewrite hex_of_length, hex_of_all_hex, hex_of_lowercase by reflexivity.
  reflexivity.
Qed.

Lemma createPk_not_empty (n : N) : (toHexString (createPk n) =? "") = false.
Proof.
  unfold createPk, toHexString.
  destruct (hex_of 24 n "") eqn:E; auto.
  apply (f_equal String.length) in E. rewrite hex_of_length in E. discriminate.
Qed.

(** ** The update document *)

Lemma updateFields_eq (updateInfo : value) :
  updateFields updateInfo
  = JObj (map (fun k => (k, get k updateInfo)) editable_fields
          ++ (if truthy (get "imgHostingInfo" updateInfo)
              then [("imgHostingInfo", get "imgHostingInfo" updateInfo)]
              else [])).
Proof.
  unfold updateFields.
  destruct (truthy (get "imgHostingInfo" updateInfo)); reflexivity.
Qed.

Lemma updateFields_keys (updateInfo : value) :
  keys (fields_of (updateFields updateInfo))
  = editable_fields
    ++ (if truthy (get "imgHostingInfo" updateInfo)
        then ["imgHostingInfo"] else []).
Proof.
  rewrite updateFields_eq.
  destruct (truthy (get "imgHostingInfo" updateInfo)); reflexivity.
Qed.

Lemma updateFields_NoDup (updateInfo : value) :
  NoDup (keys (fields_of (updateFields updateInfo))).
Proof.
  rewrite updateFields_keys.
  destruct (truthy (get "imgHostingInfo" updateInfo)); simpl;
    repeat (constructor; [simpl; intuition discriminate|]); constructor.
Qed.


Lemma assign_stored (kvs d : list (string * value)) :
  fold_left (fun d' kv => set_field (fst kv) (stored_as (snd kv)) d') kvs d
  = fold_left (fun d' kv => set_field (fst kv) (snd kv) d')
      (stored_fields kvs) d.
Proof.
  revert d. induction kvs as [|kv kvs IH]; intros d; [reflexivity|].
  cbn [fold_left stored_fields map fst snd]. apply IH.
Qed.

Lemma stored_fields_keys (kvs : list (string * value)) :
  keys (stored_fields kvs) = keys kvs.
Proof.
  unfold keys, stored_fields. rewrite map_map. reflexivity.
Qed.

Lemma stored_fields_lookup (k : string) (kvs : list (string * value)) :
  lookup k (stored_fields kvs) = option_map stored_as (lookup k kvs).
Proof.
  induction kvs as [|[l x] kvs IH]; [reflexivity|].
  cbn [stored_fields map fst snd lookup]. destruct (k =? l); auto.
Qed.

Lemma apply_set_updateFields (updateInfo : value) (d : doc) :
  apply_set (obj [("$set", updateFields updateInfo)]) d
  = fold_left (fun d' kv => set_field (fst kv) (snd kv) d')
      (stored_fields (fields_of (updateFields updateInfo))) d.
Proof. rewrite <- assign_stored, updateFields_eq. reflexivity. Qed.

(** The update writes no field outside its list. *)
Lemma apply_set_other (updateInfo : value) (d : doc) (k : string) :
  ~ In k (keys (fields_of (updateFields updateInfo))) ->
  lookup k (apply_set (obj [("$set", updateFields updateInfo)]) d) = lookup k d.
Proof.
  intros Hk. rewrite apply_set_updateFields. apply lookup_assign_other.
  now rewrite stored_fields_keys.
Qed.


Lemma id_not_updated (updateInfo : value) :
  ~ In "_id" (keys (fields_of (updateFields updateInfo))).
Proof.
  rewrite updateFields_keys.
  destruct (truthy (get "imgHostingInfo" updateInfo)); simpl;
    intuition discriminate.
Qed.

Lemma userEmail_not_updated (updateInfo : value) :
  ~ In "userEmail" (keys (fields_of (updateFields updateInfo))).
Proof.
  rewrite updateFields_keys.
  destruct (truthy (get "imgHostingInfo" updateInfo)); simpl;
    intuition discriminate.
Qed.

(** ** The collection *)

Lemma matches_id (i : value) (d : doc) :
  matches (obj [("_id", i)]) d = has_id i d.
Proof.
  unfold has_id, obj, obj_fields.
  cbn [fold_left fst snd set_field matches forallb].
  destruct (lookup "_id" d) as [x|]; [|reflexivity].
  unfold field_matches. change ("_id" =? "_id") with true.
  cbn [negb andb]. now rewrite orb_false_r, andb_true_r.
Qed.

Lemma update_first_map {A} (g : doc -> A) (f u : value) (c : list doc) :
  (forall d, g (apply_set u d) = g d) ->
  map g (fst (update_first f u c)) = map g c.
Proof.
  intros Hg. induction c as [|d c IH]; simpl; auto.
  destruct (matches f d); simpl.
  - now rewrite Hg.
  - destruct (update_first f u c) as [r n]. simpl in *. now rewrite IH.
Qed.

Lemma update_first_In (f u : value) (c : list doc) (d' : doc) :
  In d' (fst (update_first f u c)) ->
  In d' c \/ exists d, In d c /\ d' = apply_set u d.
Proof.
  induction c as [|d c IH]; simpl; auto.
  destruct (matches f d); simpl.
  - intros [<-|H]; eauto.
  - destruct (update_first f u c) as [r n]. simpl in *.
    intros [<-|H]; auto.
    destruct (IH H) as [H'|[d0 [H1 H2]]]; eauto.
Qed.

Lemma update_first_find (f u : value) (c : list doc) :
  (forall d, matches f (apply_set u d) = matches f d) ->
  List.find (matches f) (fst (update_first f u c))
  = option_map (apply_set u) (List.find (matches f) c).
Proof.
  intros Hm. induction c as [|d c IH]; simpl; auto.
  destruct (matches f d) eqn:E; simpl.
  - now rewrite Hm, E.
  - destruct (update_first f u c) as [r n]. simpl in *. now rewrite E.
Qed.

(** The two ways for [updateOne] to report that it modified nothing. *)
Lemma update_first_no_match (f u : value) (c : list doc) :
  List.find (matches f) c = None -> snd (update_first f u c) = (0%Z, 0%Z).
Proof.
  induction c as [|d c IH]; simpl; auto.
  destruct (matches f d); [discriminate|].
  destruct (update_first f u c) as [r n]. simpl in *. auto.
Qed.

Lemma update_first_same_values (f u : value) (c : list doc) (d : doc) :
  List.find (matches f) c = Some d -> apply_set u d = d ->
  snd (update_first f u c) = (1%Z, 0%Z).
Proof.
  induction c as [|d0 c IH]; simpl; [discriminate|].
  destruct (matches f d0).
  - intros [= ->] ->. pose proof (value_eqb_refl (JObj d)) as R.
    simpl in R |- *. now rewrite R.
  - destruct (update_first f u c) as [r n]. simpl in *. auto.
Qed.


Lemma remove_first_In (f : value) (c : list doc) (d : doc) :
  In d (fst (remove_first f c)) -> In d c.
Proof.
  induction c as [|d0 c IH]; simpl; auto.
  destruct (matches f d0); simpl; auto.
  destruct (remove_first f c) as [r n]. simpl in *. intuition.
Qed.

Lemma remove_first_NoDup {A} (g : doc -> A) (f : value) (c : list doc) :
  NoDup (map g c) -> NoDup (map g (fst (remove_first f c))).
Proof.
  induction c as [|d0 c IH]; simpl; auto.
  intros Hnd. inversion Hnd as [|? ? Hn Hnd']; subst.
  destruct (matches f d0); simpl; auto.
  specialize (IH Hnd').
  pose proof (remove_first_In f c) as Hin.
  destruct (remove_first f c) as [r n]. simpl in *.
  constructor; auto.
  intros H. apply Hn. apply in_map_iff in H. destruct H as [x [Hx Hi]].
  apply in_map_iff. exists x. auto.
Qed.

Lemma unique_ids_same (c : list doc) (d d' : doc) :
  unique_ids c -> In d c -> In d' c -> lookup "_id" d' = lookup "_id" d ->
  d' = d.
Proof.
  unfold unique_ids. induction c as [|d0 c IH]; simpl; [contradiction|].
  intros Hnd Hd Hd' Hid. inversion Hnd as [|? ? Hn Hnd']; subst.
  destruct Hd as [->|Hd], Hd' as [->|Hd']; auto.
  - exfalso. apply Hn. rewrite <- Hid. now apply in_map.
  - exfalso. apply Hn. rewrite Hid. now apply in_map.
Qed.

Lemma matches_id_apply_set (i updateInfo : value) (d : doc) :
  matches (obj [("_id", i)]) (apply_set (obj [("$set", updateFields updateInfo)]) d)
  = matches (obj [("_id", i)]) d.
Proof.
  rewrite !matches_id. unfold has_id.
  now rewrite (apply_set_other updateInfo d "_id" (id_not_updated updateInfo)).
Qed.

(** ** Running a handler *)

Ltac run_handler :=
  cbv beta iota delta [try_next bind ret throw respond new_ObjectId findOne
                       find insertOne deleteOne updateOne destroy].

(** ** Routing *)

Lemma route_owner_email (m : http_method) (p : list string) (email : string) :
  route m p = Some (EpListByOwner email) ->
  m = GET /\ (exists a b, strip_slash p = [a; b; email])
  /\ (email =? "") = false.
Proof.
  unfold route.
  destruct m, (strip_slash p) as [|a [|b [|c [|x q]]]];
    repeat match goal with
           | |- context [if ?t then _ else _] => destruct t eqn:?
           end; try discriminate.
  intros [= <-].
  repeat match goal with
         | H : (_ && _) = true |- _ => apply andb_prop in H; destruct H
         | H : negb _ = true |- _ => apply negb_true_iff in H
         end.
  eauto.
Qed.

Lemma strip_slash_id (a id : string) :
  (id =? "") = false -> strip_slash [a; id] = [a; id].
Proof. intros H. cbn [strip_slash]. now rewrite H. Qed.

Lemma route_by_id (m : http_method) (id : string) :
  (id =? "") = false ->
  route m ["tourist-spot"; id]
  = match m with
    | GET => Some (EpGetById id)
    | DELETE => Some (EpDelete id)
    | PATCH => Some (EpUpdate id)
    | POST => None
    end.
Proof.
  intros H. unfold route. rewrite (strip_slash_id _ _ H).
  change (seg_is "tourist-spot" "tourist-spot") with true.
  destruct m; try reflexivity; now rewrite H.
Qed.

(** Letter case and one trailing slash do not matter to the routes. *)
Lemma route_ignores_case_and_slash :
  route GET ["Tourist-Spot"; "User"; "a@x.com"]
  = Some (EpListByOwner "a@x.com")
  /\ route GET ["tourist-spot"; "user"; "a@x.com"; ""]
     = Some (EpListByOwner "a@x.com")
  /\ route GET ["tourist-spot"; ""] = Some EpListAll
  /\ route GET ["tourist-spot"; "user"] = Some (EpGetById "user").
Proof. repeat split. Qed.

Lemma ObjectId_not_empty (id : string) (oid : value) :
  ObjectId id = Some oid -> (id =? "") = false.
Proof.
  unfold ObjectId. destruct id; [discriminate|reflexivity].
Qed.

(** ** Owner-scoped listing *)

Lemma strict_eq_string_false (s : string) (v : value) :
  v <> JStr s -> strict_eq_string s v = false.
Proof.
  intros Hv. destruct v; simpl; auto.
  destruct (s =? s0) eqn:E; auto.
  apply String.eqb_eq in E. subst. contradiction.
Qed.

(** C1.  A request routed to GET /tourist-spot/user/:email whose token
    verifies to an identity with a [user] other than [:email] is answered
    403 "Access forbidden", and the world after it is the world before
    it: nothing was asked of the collection. *)
Theorem owner_mismatch_forbidden (sv : services) (req : request) (w : world)
    (email : string) (decoded : value) :
  route (method req) (path req) = Some (EpListByOwner email) ->
  truthy (get "token" (cookies req)) = true ->
  jwt_verify sv (get "token" (cookies req)) = Ok decoded ->
  get "user" decoded <> JStr email ->
  app sv req w
  = (json 403 (obj [("success", JBool false);
                    ("message", JStr "Access forbidden")]), w)
  /\ log (snd (app sv req w)) = log w.
Proof.
  intros Hr Ht Hv Hne.
  destruct (route_owner_email _ _ _ Hr) as [_ [_ He]].
  assert (E : app sv req w
              = (json 403 (obj [("success", JBool false);
                                ("message", JStr "Access forbidden")]), w)).
  { unfold app. rewrite Hr. simpl handle. unfold verifyToken.
    rewrite Ht, Hv. simpl negb. cbv iota.
    unfold get_user_tourist_spots.
    change (truthy (JStr email)) with (negb (email =? "")). rewrite He.
    rewrite (strict_eq_string_false _ _ Hne). reflexivity. }
  now rewrite E.
Qed.

Lemma owner_mismatch_forbidden_witness :
  app sample_services
    (mkRequest GET ["tourist-spot"; "user"; "b@x.com"] JUndefined
       (session "jwt:a@x.com")) reef_world
  = (json 403 (obj [("success", JBool false);
                    ("message", JStr "Access forbidden")]), reef_world)
  /\ log (snd (app sample_services
                 (mkRequest GET ["tourist-spot"; "user"; "b@x.com"] JUndefined
                    (session "jwt:a@x.com")) reef_world))
     = log reef_world.
Proof.
  apply (owner_mismatch_forbidden sample_services
           (mkRequest GET ["tourist-spot"; "user"; "b@x.com"] JUndefined
              (session "jwt:a@x.com"))
           reef_world "b@x.com" (obj [("user", JStr "a@x.com")])).
  - reflexivity.
  - reflexivity.
  - reflexivity.
  - simpl. discriminate.
Defined.

(** ** Listing everything *)

(** C2.  On a collection without documents GET /tourist-spot answers 404
    "No data found", never 200, after one [find]; a lookup by identifier
    on that collection gets the very same answer. *)
Theorem listAll_empty_not_found (sv : services) (b c : value) (w : world) :
  collection w = [] ->
  app sv (mkRequest GET ["tourist-spot"] b c) w
  = (json 404 (obj [("success", JBool false);
                    ("message", JStr "No data found")]),
     record (DbFind (obj [])) w)
  /\ forall (id : string) (oid b' c' : value),
       ObjectId id = Some oid ->
       fst (app sv (mkRequest GET ["tourist-spot"; id] b' c') w)
       = fst (app sv (mkRequest GET ["tourist-spot"] b c) w).
Proof.
  intros Hc.
  assert (E : app sv (mkRequest GET ["tourist-spot"] b c) w
              = (json 404 (obj [("success", JBool false);
                                ("message", JStr "No data found")]),
                 record (DbFind (obj [])) w)).
  { unfold app. simpl. unfold get_tourist_spots. run_handler.
    rewrite Hc. reflexivity. }
  split; [exact E|].
  intros id oid b' c' Hid. rewrite E.
  unfold app. cbn [method path].
  rewrite (route_by_id GET id (ObjectId_not_empty _ _ Hid)). cbn [handle].
  unfold get_tourist_spot, try_next, bind, new_ObjectId. rewrite Hid.
  run_handler. unfold first_match. rewrite Hc. reflexivity.
Qed.

Lemma listAll_empty_not_found_witness :
  app sample_services (mkRequest GET ["tourist-spot"] JUndefined JUndefined)
    empty_world
  = (json 404 (obj [("success", JBool false);
                    ("message", JStr "No data found")]),
     record (DbFind (obj [])) empty_world)
  /\ forall (id : string) (oid b' c' : value),
       ObjectId id = Some oid ->
       fst (app sample_services (mkRequest GET ["tourist-spot"; id] b' c')
              empty_world)
       = fst (app sample_services
                (mkRequest GET ["tourist-spot"] JUndefined JUndefined)
                empty_world).
Proof.
  apply (listAll_empty_not_found sample_services JUndefined JUndefined
           empty_world).
  reflexivity.
Defined.

(** ** Create, then read *)

Lemma remove_field_absent (k : string) (fs : list (string * value)) :
  lookup k fs = None -> remove_field k fs = fs.
Proof.
  induction fs as [|[l x] fs IH]; simpl; auto.
  destruct (k =? l); [discriminate|]. intros H. now rewrite IH.
Qed.

Lemma find_app_new (P : doc -> bool) (c : list doc) (d : doc) :
  existsb P c = false -> P d = true -> List.find P (c ++ [d]) = Some d.
Proof.
  intros Hc Hd. induction c as [|d0 c IH]; simpl in *.
  - now rewrite Hd.
  - apply orb_false_iff in Hc. destruct Hc as [-> Hc]. auto.
Qed.

Lemma existsb_has_id (i : value) (c : list doc) :
  existsb (matches (obj [("_id", i)])) c = existsb (has_id i) c.
Proof.
  induction c as [|d c IH]; [reflexivity|].
  cbn [existsb]. now rewrite matches_id, IH.
Qed.

Lemma has_id_head (i : value) (fs : list (string * value)) :
  has_id i (("_id", i) :: fs) = true.
Proof. unfold has_id. simpl. apply value_eqb_refl. Qed.

Lemma insertedId_get (i : value) :
  get "insertedId" (obj [("acknowledged", JBool true); ("insertedId", i)]) = i.
Proof. reflexivity. Qed.

Lemma createPk_truthy (n : N) : truthy (createPk n) = true.
Proof. reflexivity. Qed.

Lemma createPk_not_array (n : N) : is_array (createPk n) = false.
Proof. reflexivity. Qed.

(** C4, as the source has it.  When a body that has no [_id] of its own
    is accepted by POST /tourist-spot (201 with an [id]), the next GET
    /tourist-spot/:id with that [id] answers 200 with the document made
    of that [_id] and the fields of the body, as they were sent. *)
Theorem create_then_getById (sv : services) (fields : list (string * value))
    (ck b c : value) (w w' : world) (r : response) :
  lookup "_id" fields = None ->
  app sv (mkRequest POST ["tourist-spot"] (JObj fields) ck) w
  = (Responded r, w') ->
  status r = 201 ->
  let id := get "id" (res_body r) in
  app sv (mkRequest GET ["tourist-spot"; toHexString id] b c) w'
  = (json 200 (obj [("success", JBool true);
                    ("data", JObj (("_id", id) :: fields))]),
     record (DbFindOne (obj [("_id", id)])) w').
Proof.
  intros Hno Hpost _.
  unfold app in Hpost. cbn [method path route handle] in Hpost.
  simpl in Hpost. unfold post_tourist_spot in Hpost.
  cbn [body] in Hpost. revert Hpost. run_handler.
  cbn [get]. rewrite Hno. cbn [nullish].
  destruct (existsb (has_id (createPk (pk_counter w))) (collection w)) eqn:Hdup;
    [discriminate|].
  rewrite createPk_not_array.
  rewrite (remove_field_absent _ _ Hno).
  rewrite insertedId_get, createPk_truthy. cbn [negb].
  intros [= <- <-]. cbn [res_body].
  change (get "id" _) with (createPk (pk_counter w)).
  unfold app. cbn [method path].
  rewrite (route_by_id GET _ (createPk_not_empty _)). cbn [handle].
  unfold get_tourist_spot, try_next, bind, new_ObjectId.
  rewrite ObjectId_createPk. run_handler.
  unfold first_match. cbn [collection].
  rewrite find_app_new.
  - reflexivity.
  - now rewrite existsb_has_id.
  - rewrite matches_id. apply has_id_head.
Qed.

Lemma create_then_getById_witness :
  let fields := [("spot_name", JStr "Reef"); ("userEmail", JStr "a@x.com")] in
  let r := mkResponse 201
             (obj [("success", JBool true);
                   ("message", JStr "Tourist spot added successfully");
                   ("id", JOid reef_id)]) NoCookie in
  let w' := mkWorld [("_id", JOid reef_id) :: fields] 1
              [DbInsertOne (JObj fields)] in
  app sample_services
    (mkRequest GET ["tourist-spot"; reef_id] JUndefined JUndefined) w'
  = (json 200 (obj [("success", JBool true);
                    ("data", JObj (("_id", JOid reef_id) :: fields))]),
     record (DbFindOne (obj [("_id", JOid reef_id)])) w').
Proof.
  intros fields r w'.
  apply (create_then_getById sample_services fields JUndefined JUndefined
           JUndefined empty_world w' r); reflexivity.
Defined.

(** C4, as the claim has it, fails on a body that brings its own [_id]:
    the collection keeps that string as the identifier and answers 201
    with it, and the lookup, which asks for the ObjectId the string
    spells, finds nothing. *)
Lemma create_with_own_id_not_found :
  let payload := JObj [("_id", JStr "507f1f77bcf86cd799439011");
                       ("spot_name", JStr "Reef")] in
  let created := app sample_services
                   (mkRequest POST ["tourist-spot"] payload JUndefined)
                   empty_world in
  fst created
  = json 201 (obj [("success", JBool true);
                   ("message", JStr "Tourist spot added successfully");
                   ("id", JStr "507f1f77bcf86cd799439011")])
  /\ fst (app sample_services
            (mkRequest GET ["tourist-spot"; "507f1f77bcf86cd799439011"]
               JUndefined JUndefined) (snd created))
     = json 404 (obj [("success", JBool false);
                      ("message", JStr "No data found")]).
Proof. split; reflexivity. Qed.

(** ** Token issuance *)

(** C7, as the source has it.  POST /jwt with a falsy body answers 401
    "Verified email not found!" and sets no cookie.  With a truthy body
    for which signing returns a token that is not empty, it answers 200
    and sets the cookie [token] (httpOnly, secure, sameSite none) to that
    token. *)
Theorem jwt_issue (sv : services) (b c : value) (w : world) :
  (truthy b = false ->
   app sv (mkRequest POST ["jwt"] b c) w
   = (Responded
        (mkResponse 401
           (obj [("success", JBool false);
                 ("message", JStr "Verified email not found!")]) NoCookie), w))
  /\ (forall token, truthy b = true -> jwt_sign sv b = Ok token ->
        token <> "" ->
        app sv (mkRequest POST ["jwt"] b c) w
        = (Responded
             (mkResponse 200 (obj [("success", JBool true)])
                (SetCookie "token" token
                   (obj [("httpOnly", JBool true); ("secure", JBool true);
                         ("sameSite", JStr "none")]))), w)).
Proof.
  split.
  - intros Hb. unfold app. cbn [method path].
    change (route POST ["jwt"]) with (Some EpJwt). cbn [handle].
    unfold post_jwt. cbn [body]. now rewrite Hb.
  - intros token Hb Hs Hne. unfold app. cbn [method path].
    change (route POST ["jwt"]) with (Some EpJwt). cbn [handle].
    unfold post_jwt. cbn [body].
    rewrite Hb, Hs. cbn [negb].
    change (truthy (JStr token)) with (negb (token =? "")).
    destruct (token =? "") eqn:E; [|reflexivity].
    apply String.eqb_eq in E. contradiction.
Qed.

Lemma jwt_issue_witness :
  app sample_services (mkRequest POST ["jwt"] JUndefined JUndefined)
    empty_world
  = (Responded
       (mkResponse 401
          (obj [("success", JBool false);
                ("message", JStr "Verified email not found!")]) NoCookie),
     empty_world)
  /\ app sample_services
       (mkRequest POST ["jwt"] (obj [("user", JStr "a@x.com")]) JUndefined)
       empty_world
     = (Responded
          (mkResponse 200 (obj [("success", JBool true)])
             (SetCookie "token" "jwt:a@x.com"
                (obj [("httpOnly", JBool true); ("secure", JBool true);
                      ("sameSite", JStr "none")]))), empty_world).
Proof.
  split.
  - apply (proj1 (jwt_issue sample_services JUndefined JUndefined empty_world)).
    reflexivity.
  - apply (proj2 (jwt_issue sample_services (obj [("user", JStr "a@x.com")])
                    JUndefined empty_world) "jwt:a@x.com").
    + reflexivity.
    + reflexivity.
    + discriminate.
Defined.

(** C7, as the claim has it, fails on a present identity claim that the
    token library refuses to sign: the handler logs the error and sends
    no response at all, so there is neither a 200 nor a cookie. *)
Lemma jwt_sign_throws_no_response :
  let claim := obj [("user", JStr "a@x.com"); ("exp", JNum 1)] in
  truthy claim = true
  /\ app sample_services (mkRequest POST ["jwt"] claim JUndefined) empty_world
     = (NoResponse, empty_world).
Proof. split; reflexivity. Qed.

(** ** The response envelope *)

(** C8.  DELETE /tourist-spot/:id for an identifier no document has
    answers 404 with a body whose only field is [success], holding the
    string "No data found to delete": not a boolean, and no [message]. *)
Theorem delete_missing_success_is_string (sv : services) (b c : value) :
  app sv (mkRequest DELETE ["tourist-spot"; reef_id] b c) empty_world
  = (json 404 (JObj [("success", JStr "No data found to delete")]),
     mkWorld [] 0 [DbFindOne (obj [("_id", JOid reef_id)]);
                   DbDeleteOne (obj [("_id", JOid reef_id)])]).
Proof. reflexivity. Qed.

(** ** The update handler *)

Section Update.

Variables (sv : services) (id : string) (req : request) (w : world).

Local Abbreviation ex_public_id := (get "ex_public_id" (body req)).
Local Abbreviation filter_of oid := (obj [("_id", oid)]).
Local Abbreviation updateDoc := (obj [("$set", updateFields (body req))]).

(** An update whose identifier parses and whose cleanup does not fail
    calls the uploader (if there is an [ex_public_id]), then [updateOne],
    and answers on the modified count alone. *)
Lemma patch_reaches_update (oid : value) :
  nullish (body req) = false -> ObjectId id = Some oid ->
  cleanup_ok sv (body req) = true ->
  let r := update_first (filter_of oid) updateDoc (collection w) in
  patch_tourist_spot sv id req w
  = ((if (snd (snd r) =? 0)%Z
      then json 500
             (obj [("success", JBool false);
                   ("message", JStr "Failed to update this document data")])
      else json 200
             (obj [("success", JBool true);
                   ("message", JStr "Tourist spot updated successfully")])),
     mkWorld (fst r) (pk_counter w)
       (log w ++ (if truthy ex_public_id then [CloudDestroy ex_public_id]
                  else [])
        ++ [DbUpdateOne (filter_of oid) updateDoc])).
Proof.
  intros Hb Hid Hc r.
  unfold patch_tourist_spot, try_next, bind, new_ObjectId.
  rewrite Hb, Hid. run_handler.
  unfold cleanup_ok in Hc.
  destruct (truthy ex_public_id) eqn:Hex; simpl in Hc.
  - destruct (cloud_destroy sv ex_public_id) as [res|e]; [|discriminate].
    unfold record. cbn [collection pk_counter log].
    fold r. destruct r as [c' [m n]]. cbn [fst snd].
    rewrite <- app_assoc.
    destruct (n =? 0)%Z eqn:En; simpl; rewrite En; reflexivity.
  - fold r. destruct r as [c' [m n]]. cbn [fst snd].
    destruct (n =? 0)%Z eqn:En; simpl; rewrite En; reflexivity.
Qed.

(** An update whose cleanup fails stops there. *)
Lemma patch_cleanup_fails (oid : value) (e : error) :
  ObjectId id = Some oid ->
  truthy ex_public_id = true ->
  cloud_destroy sv ex_public_id = Throw e ->
  patch_tourist_spot sv id req w = (NextErr e, record (CloudDestroy ex_public_id) w).
Proof.
  intros Hid Hex He. unfold patch_tourist_spot.
  destruct (nullish (body req)) eqn:Hb.
  - destruct (body req); discriminate.
  - unfold try_next, bind, new_ObjectId. rewrite Hid, Hex. run_handler.
    rewrite He. reflexivity.
Qed.

(** An update stops before any call when its identifier does not parse
    or its body cannot be destructured. *)
Lemma patch_without_call :
  nullish (body req) = true \/ ObjectId id = None ->
  snd (patch_tourist_spot sv id req w) = w.
Proof.
  unfold patch_tourist_spot. destruct (nullish (body req)); [reflexivity|].
  intros [H|H]; [discriminate|].
  unfold try_next, bind, new_ObjectId. now rewrite H.
Qed.

(** The three ways of an update: no call, a cleanup that fails, an
    [updateOne]. *)
Lemma patch_cases :
  (nullish (body req) = true \/ ObjectId id = None)
  \/ (exists oid e, ObjectId id = Some oid /\ truthy ex_public_id = true
                    /\ cloud_destroy sv ex_public_id = Throw e)
  \/ (exists oid, nullish (body req) = false /\ ObjectId id = Some oid
                  /\ cleanup_ok sv (body req) = true).
Proof.
  destruct (nullish (body req)) eqn:Hb; [now left; left|].
  destruct (ObjectId id) as [oid|] eqn:Hid; [|now left; right].
  right. destruct (cleanup_ok sv (body req)) eqn:Hc; [right; eauto|].
  left. exists oid. unfold cleanup_ok in Hc.
  apply orb_false_iff in Hc. destruct Hc as [Hex Hc].
  apply negb_false_iff in Hex.
  destruct (cloud_destroy sv ex_public_id) as [res|e]; [discriminate|eauto].
Qed.

(** Whatever its outcome, an update leaves the collection as it is or as
    [updateOne] makes it. *)
Lemma patch_collection :
  collection (snd (patch_tourist_spot sv id req w)) = collection w
  \/ exists oid,
       collection (snd (patch_tourist_spot sv id req w))
       = fst (update_first (filter_of oid) updateDoc (collection w)).
Proof.
  destruct patch_cases as [H|[[oid [e [Hid [Hex He]]]]|[oid [Hb [Hid Hc]]]]].
  - left. now rewrite (patch_without_call H).
  - left. now rewrite (patch_cleanup_fails oid e Hid Hex He).
  - right. exists oid. now rewrite (patch_reaches_update oid Hb Hid Hc).
Qed.

(** An update that is answered parsed its identifier and got through
    its cleanup. *)
Lemma patch_responded (w' : world) (r : response) :
  patch_tourist_spot sv id req w = (Responded r, w') ->
  nullish (body req) = false /\ cleanup_ok sv (body req) = true
  /\ exists oid, ObjectId id = Some oid.
Proof.
  intros H.
  destruct patch_cases
    as [Hn|[[oid [e [Hid [Hex He]]]]|[oid [Hb [Hid Hc]]]]]; [| |eauto].
  - exfalso. revert H. unfold patch_tourist_spot.
    destruct (nullish (body req)); [discriminate|].
    destruct Hn as [Hn|Hn]; [discriminate|].
    unfold try_next, bind, new_ObjectId. rewrite Hn. discriminate.
  - rewrite (patch_cleanup_fails oid e Hid Hex He) in H. discriminate.
Qed.

(** C3, as the source has it.  When the identifier of an update parses
    and the body has a truthy [ex_public_id], the uploader's [destroy] is
    called once, with that value, before [updateOne].  If [destroy]
    resolves, [updateOne] is the next and last call; if it rejects, the
    error goes to [next] and [updateOne] is not called. *)
Theorem cleanup_precedes_update (oid : value) :
  ObjectId id = Some oid ->
  truthy ex_public_id = true ->
  (forall res, cloud_destroy sv ex_public_id = Ok res ->
     log (snd (patch_tourist_spot sv id req w))
     = log w ++ [CloudDestroy ex_public_id;
                 DbUpdateOne (filter_of oid) updateDoc])
  /\ (forall e, cloud_destroy sv ex_public_id = Throw e ->
        patch_tourist_spot sv id req w
        = (NextErr e,
           mkWorld (collection w) (pk_counter w)
             (log w ++ [CloudDestroy ex_public_id]))).
Proof.
  intros Hid Hex. split.
  - intros res Hres.
    assert (Hb : nullish (body req) = false).
    { destruct (body req); try reflexivity; discriminate. }
    assert (Hc : cleanup_ok sv (body req) = true).
    { unfold cleanup_ok. rewrite Hres. apply orb_true_r. }
    rewrite (patch_reaches_update oid Hb Hid Hc).
    cbn [snd log]. now rewrite Hex.
  - intros e He. now apply patch_cleanup_fails with (oid := oid).
Qed.


(** C6.  When [updateOne] reports no modified document the update
    answers 500 "Failed to update this document data"; it does so when no
    document has the identifier and when the document already holds the
    values of the update, with one and the same response. *)
Theorem update_zero_modified_500 (oid : value) :
  nullish (body req) = false -> ObjectId id = Some oid ->
  cleanup_ok sv (body req) = true ->
  let failed :=
    json 500 (obj [("success", JBool false);
                   ("message", JStr "Failed to update this document data")]) in
  (snd (snd (update_first (filter_of oid) updateDoc (collection w))) = 0%Z ->
   fst (patch_tourist_spot sv id req w) = failed)
  /\ (List.find (matches (filter_of oid)) (collection w) = None ->
      fst (patch_tourist_spot sv id req w) = failed)
  /\ (forall d, List.find (matches (filter_of oid)) (collection w) = Some d ->
        apply_set updateDoc d = d ->
        fst (patch_tourist_spot sv id req w) = failed).
Proof.
  intros Hb Hid Hc failed.
  assert (Hz : snd (snd (update_first (filter_of oid) updateDoc (collection w)))
               = 0%Z ->
               fst (patch_tourist_spot sv id req w) = failed).
  { intros Hz. rewrite (patch_reaches_update oid Hb Hid Hc).
    cbn [fst]. now rewrite Hz. }
  split; [exact Hz|split].
  - intros Hnone. apply Hz. now rewrite update_first_no_match.
  - intros d Hd Hsame. apply Hz.
    now rewrite (update_first_same_values _ _ _ d Hd Hsame).
Qed.

(** C10.  An update whose body has no truthy [imgHostingInfo] lists the
    eight editable fields in its [$set] and nothing else, and leaves the
    [imgHostingInfo] of every document of the collection as it was; a
    body with a truthy [imgHostingInfo] has it listed as well. *)
Theorem update_without_image_keeps_it :
  truthy (get "imgHostingInfo" (body req)) = false ->
  keys (fields_of (updateFields (body req))) = editable_fields
  /\ map (lookup "imgHostingInfo")
       (collection (snd (patch_tourist_spot sv id req w)))
     = map (lookup "imgHostingInfo") (collection w)
  /\ (forall updateInfo, truthy (get "imgHostingInfo" updateInfo) = true ->
        lookup "imgHostingInfo" (fields_of (updateFields updateInfo))
        = Some (get "imgHostingInfo" updateInfo)).
Proof.
  intros Himg.
  assert (Hk : keys (fields_of (updateFields (body req))) = editable_fields).
  { rewrite updateFields_keys, Himg. reflexivity. }
  split; [exact Hk|split].
  - destruct patch_collection as [E|[oid E]]; rewrite E; auto.
    apply update_first_map. intros d. apply apply_set_other.
    rewrite Hk. simpl. intuition discriminate.
  - intros updateInfo Ht. rewrite updateFields_eq, Ht. reflexivity.
Qed.

End Update.

(** The update of the reef with an [ex_public_id], on an asset store that
    answers and on one that cannot be reached. *)
Lemma cleanup_precedes_update_witness :
  let req := mkRequest PATCH ["tourist-spot"; reef_id]
               (obj [("spot_name", JStr "Atoll");
                     ("ex_public_id", JStr "img123")]) JUndefined in
  log (snd (patch_tourist_spot sample_services reef_id req reef_world))
  = [CloudDestroy (JStr "img123");
     DbUpdateOne (obj [("_id", JOid reef_id)])
       (obj [("$set", updateFields (body req))])]
  /\ patch_tourist_spot unreachable_cloud reef_id req reef_world
     = (NextErr "cloudinary: request failed",
        mkWorld [reef] 1 [CloudDestroy (JStr "img123")]).
Proof.
  intros req. split.
  - apply (proj1 (cleanup_precedes_update sample_services reef_id req
                    reef_world (JOid reef_id) eq_refl eq_refl)
             (obj [("result", JStr "ok")])).
    reflexivity.
  - apply (proj2 (cleanup_precedes_update unreachable_cloud reef_id req
                    reef_world (JOid reef_id) eq_refl eq_refl)
             "cloudinary: request failed").
    reflexivity.
Defined.

(** C3, as the claim has it, fails twice.  With an asset store that
    cannot be reached the update of the reef stops after [destroy]: the
    error goes to [next], [updateOne] is never called and the document
    keeps its name.  With an identifier that does not parse [destroy] is
    not called at all. *)
Lemma cleanup_failure_aborts_update :
  let updateInfo := obj [("spot_name", JStr "Atoll");
                         ("ex_public_id", JStr "img123")] in
  app unreachable_cloud
    (mkRequest PATCH ["tourist-spot"; reef_id] updateInfo JUndefined)
    reef_world
  = (NextErr "cloudinary: request failed",
     mkWorld [reef] 1 [CloudDestroy (JStr "img123")])
  /\ app sample_services
       (mkRequest PATCH ["tourist-spot"; "reef"] updateInfo JUndefined)
       reef_world
     = (NextErr "BSONError: input must be a 24 character hex string",
        reef_world).
Proof. split; reflexivity. Qed.



Lemma update_zero_modified_500_witness :
  let failed :=
    json 500 (obj [("success", JBool false);
                   ("message", JStr "Failed to update this document data")]) in
  fst (patch_tourist_spot sample_services reef_id
         (mkRequest PATCH ["tourist-spot"; reef_id]
            (obj [("spot_name", JStr "Atoll")]) JUndefined) empty_world)
  = failed
  /\ fst (patch_tourist_spot sample_services reef_id
            (mkRequest PATCH ["tourist-spot"; reef_id] (JObj lagoon_fields)
               JUndefined) lagoon_world)
     = failed.
Proof.
  intros failed. split.
  - apply (update_zero_modified_500 sample_services reef_id
             (mkRequest PATCH ["tourist-spot"; reef_id]
                (obj [("spot_name", JStr "Atoll")]) JUndefined)
             empty_world (JOid reef_id)); reflexivity.
  - refine (proj2 (proj2 (update_zero_modified_500 sample_services reef_id
             (mkRequest PATCH ["tourist-spot"; reef_id] (JObj lagoon_fields)
                JUndefined)
             lagoon_world (JOid reef_id) _ _ _))
             (("_id", JOid reef_id) :: ("userEmail", JStr "a@x.com")
              :: lagoon_fields) _ _); reflexivity.
Defined.

Lemma update_without_image_keeps_it_witness :
  let req := mkRequest PATCH ["tourist-spot"; reef_id]
               (obj [("spot_name", JStr "Atoll");
                     ("imgHostingInfo", JNull)]) JUndefined in
  keys (fields_of (updateFields (body req))) = editable_fields
  /\ map (lookup "imgHostingInfo")
       (collection (snd (patch_tourist_spot sample_services reef_id req
                           reef_world)))
     = map (lookup "imgHostingInfo") (collection reef_world)
  /\ (forall updateInfo, truthy (get "imgHostingInfo" updateInfo) = true ->
        lookup "imgHostingInfo" (fields_of (updateFields updateInfo))
        = Some (get "imgHostingInfo" updateInfo)).
Proof.
  intros req.
  apply (update_without_image_keeps_it sample_services reef_id req reef_world).
  reflexivity.
Defined.

(** ** What a request can do to the collection *)

Lemma verifyToken_collection (sv : services) (req : request)
    (next : value -> handler) (w : world) :
  (forall user, collection (snd (next user w)) = collection w) ->
  collection (snd (verifyToken sv req next w)) = collection w.
Proof.
  intros Hn. unfold verifyToken.
  destruct (negb (truthy (get "token" (cookies req)))); [reflexivity|].
  destruct (jwt_verify sv (get "token" (cookies req))); [apply Hn|reflexivity].
Qed.

Lemma get_user_tourist_spots_collection (email : string) (user : value)
    (w : world) :
  collection (snd (get_user_tourist_spots email user w)) = collection w.
Proof.
  unfold get_user_tourist_spots.
  destruct (negb (truthy (JStr email))); [reflexivity|].
  destruct (negb (strict_eq_string email (get "user" user))); [reflexivity|].
  run_handler.
  destruct (List.length _ =? 0)%nat; reflexivity.
Qed.

Lemma get_tourist_spots_collection (w : world) :
  collection (snd (get_tourist_spots w)) = collection w.
Proof.
  unfold get_tourist_spots. run_handler.
  destruct (List.length _ =? 0)%nat; reflexivity.
Qed.

Lemma get_tourist_spot_collection (id : string) (w : world) :
  collection (snd (get_tourist_spot id w)) = collection w.
Proof.
  unfold get_tourist_spot, try_next, bind, new_ObjectId.
  destruct (ObjectId id) as [oid|]; [|reflexivity].
  run_handler. destruct (negb (truthy _)); reflexivity.
Qed.

Lemma post_jwt_collection (sv : services) (req : request) (w : world) :
  collection (snd (post_jwt sv req w)) = collection w.
Proof.
  unfold post_jwt.
  destruct (negb (truthy (body req))); [reflexivity|].
  destruct (jwt_sign sv (body req)) as [token|e]; [|reflexivity].
  destruct (negb (truthy (JStr token))); reflexivity.
Qed.

(** A creation leaves the collection as it is or appends one document,
    whose [_id] no document had. *)
Lemma post_tourist_spot_collection (req : request) (w : world) :
  collection (snd (post_tourist_spot req w)) = collection w
  \/ exists id fs,
       collection (snd (post_tourist_spot req w))
       = collection w ++ [("_id", id) :: fs]
       /\ existsb (has_id id) (collection w) = false.
Proof.
  unfold post_tourist_spot. run_handler.
  destruct (body req) as [ | | b | n | s | h | items | fs];
    try (left; reflexivity).
  cbv zeta.
  set (id := if nullish (get "_id" (JObj fs)) then createPk (pk_counter w)
             else get "_id" (JObj fs)).
  destruct (existsb (has_id id) (collection w)) eqn:Hdup;
    [left; reflexivity|].
  destruct (is_array id); [left; reflexivity|].
  right. exists id, (remove_field "_id" fs). split; [|exact Hdup].
  rewrite insertedId_get. destruct (negb (truthy id)); reflexivity.
Qed.

(** A deletion leaves the collection as it is or removes one document. *)
Lemma delete_tourist_spot_collection (sv : services) (id : string) (w : world) :
  collection (snd (delete_tourist_spot sv id w)) = collection w
  \/ exists filter,
       collection (snd (delete_tourist_spot sv id w))
       = fst (remove_first filter (collection w)).
Proof.
  unfold delete_tourist_spot, try_next, bind, new_ObjectId.
  destruct (ObjectId id) as [oid|]; [|left; reflexivity].
  run_handler.
  set (public_id := get "public_id" (get "imgHostingInfo" _)).
  destruct (truthy public_id);
    [destruct (cloud_destroy sv public_id) as [res|e]; [|left; reflexivity]|];
    (right; exists (obj [("_id", oid)]); cbn [record collection];
     destruct (remove_first _ (collection w)) as [c' n];
     destruct (negb (truthy _)); reflexivity).
Qed.

(** Every request leaves the collection as it is, removes one document,
    updates one document in place, or appends one document with an
    [_id] that was free. *)
Lemma app_collection (sv : services) (req : request) (w : world) :
  let c := collection w in
  let c' := collection (snd (app sv req w)) in
  c' = c
  \/ (exists filter, c' = fst (remove_first filter c))
  \/ (exists oid,
        c' = fst (update_first (obj [("_id", oid)])
                    (obj [("$set", updateFields (body req))]) c))
  \/ (exists id fs,
        c' = c ++ [("_id", id) :: fs] /\ existsb (has_id id) c = false).
Proof.
  intros c c'. subst c c'. unfold app.
  destruct (route (method req) (path req)) as [[ | | | | email | id | | id | id]|];
    cbn [handle].
  - left. apply post_jwt_collection.
  - left. reflexivity.
  - left. reflexivity.
  - left. apply get_tourist_spots_collection.
  - left. apply verifyToken_collection.
    intros user. apply get_user_tourist_spots_collection.
  - left. apply get_tourist_spot_collection.
  - destruct (post_tourist_spot_collection req w) as [H|H]; auto.
  - destruct (delete_tourist_spot_collection sv id w) as [H|H]; auto.
  - destruct (patch_collection sv id req w) as [H|H]; auto.
  - left. reflexivity.
Qed.

(** ** Ownership *)

Lemma has_id_free (i : value) (c : list doc) :
  existsb (has_id i) c = false -> ~ In (Some i) (map (lookup "_id") c).
Proof.
  induction c as [|d c IH]; simpl; auto.
  intros H. apply orb_false_iff in H. destruct H as [Hd Hc].
  intros [E|E]; [|now apply IH].
  unfold has_id in Hd. rewrite E, value_eqb_refl in Hd. discriminate.
Qed.

Lemma NoDup_snoc {A} (l : list A) (a : A) :
  NoDup l -> ~ In a l -> NoDup (l ++ [a]).
Proof.
  induction l as [|x l IH]; simpl; intros Hnd Hn.
  - constructor; auto.
  - inversion Hnd as [|? ? Hx Hl]; subst. constructor.
    + rewrite in_app_iff. simpl. intuition.
    + apply IH; auto.
Qed.

(** The collection never gets two documents with one [_id]. *)
Lemma app_unique_ids (sv : services) (req : request) (w : world) :
  unique_ids (collection w) -> unique_ids (collection (snd (app sv req w))).
Proof.
  intros Hu.
  destruct (app_collection sv req w)
    as [E|[[f E]|[[oid E]|[id [fs [E Hfree]]]]]]; rewrite E; unfold unique_ids.
  - exact Hu.
  - now apply remove_first_NoDup.
  - rewrite update_first_map; [exact Hu|].
    intros d. apply apply_set_other, id_not_updated.
  - rewrite map_app. cbn [map lookup].
    change ("_id" =? "_id") with true. cbv iota.
    apply NoDup_snoc; [exact Hu|now apply has_id_free].
Qed.

Lemma run_unique_ids (sv : services) (reqs : list request) (w : world) :
  unique_ids (collection w) -> unique_ids (collection (run sv reqs w)).
Proof.
  revert w. induction reqs as [|req reqs IH]; intros w Hu; simpl; auto.
  apply IH. now apply app_unique_ids.
Qed.

(** In particular, whatever was served since the collection was empty. *)
Lemma served_unique_ids (sv : services) (reqs : list request) :
  unique_ids (collection (run sv reqs empty_world)).
Proof. apply run_unique_ids. constructor. Qed.

(** C9.  The [$set] of an update never lists [userEmail], and no request
    changes the [userEmail] of a stored document: a document of the
    collection before a request and a document with the same [_id] after
    it have the same [userEmail]. *)
Theorem userEmail_immutable (sv : services) (req : request) (w : world)
    (d d' : doc) :
  unique_ids (collection w) ->
  In d (collection w) ->
  In d' (collection (snd (app sv req w))) ->
  lookup "_id" d' = lookup "_id" d ->
  ~ In "userEmail" (keys (fields_of (updateFields (body req))))
  /\ lookup "userEmail" d' = lookup "userEmail" d.
Proof.
  intros Hu Hd Hd' Hid. split; [apply userEmail_not_updated|].
  destruct (app_collection sv req w)
    as [E|[[f E]|[[oid E]|[id [fs [E Hfree]]]]]]; rewrite E in Hd'.
  - now rewrite (unique_ids_same _ _ _ Hu Hd Hd' Hid).
  - apply remove_first_In in Hd'.
    now rewrite (unique_ids_same _ _ _ Hu Hd Hd' Hid).
  - apply update_first_In in Hd'. destruct Hd' as [Hd'|[d0 [Hd0 ->]]].
    + now rewrite (unique_ids_same _ _ _ Hu Hd Hd' Hid).
    + rewrite (apply_set_other _ _ _ (id_not_updated _)) in Hid.
      rewrite (apply_set_other _ _ _ (userEmail_not_updated _)).
      now rewrite (unique_ids_same _ _ _ Hu Hd Hd0 Hid).
  - apply in_app_or in Hd'. destruct Hd' as [Hd'|[<-|[]]].
    + now rewrite (unique_ids_same _ _ _ Hu Hd Hd' Hid).
    + exfalso. apply (has_id_free _ _ Hfree).
      cbn [lookup] in Hid. change ("_id" =? "_id") with true in Hid.
      cbv iota in Hid. rewrite Hid. now apply in_map.
Qed.

Lemma userEmail_immutable_witness :
  let req := mkRequest PATCH ["tourist-spot"; reef_id]
               (obj [("spot_name", JStr "Atoll");
                     ("userEmail", JStr "mallory@x.com")]) JUndefined in
  let d' := apply_set (obj [("$set", updateFields (body req))]) reef in
  ~ In "userEmail" (keys (fields_of (updateFields (body req))))
  /\ lookup "userEmail" d' = lookup "userEmail" reef.
Proof.
  intros req d'.
  apply (userEmail_immutable sample_services req reef_world reef d').
  - repeat constructor. simpl. tauto.
  - left. reflexivity.
  - left. reflexivity.
  - reflexivity.
Defined.

(** * Further properties of the handlers *)

(** ** Filters *)

Lemma matches_id_iff (v : value) (d : doc) :
  matches (obj [("_id", v)]) d = true <-> lookup "_id" d = Some v.
Proof.
  rewrite matches_id. unfold has_id.
  destruct (lookup "_id" d) as [x|]; split; try discriminate.
  - intros H. apply value_eqb_eq in H. now subst.
  - intros [= ->]. apply value_eqb_refl.
Qed.

Lemma value_eqb_string (x : value) (s : string) :
  value_eqb x (JStr s) = is_string s x.
Proof. destruct x; reflexivity. Qed.

(** The filter of the owner listing selects the documents of the owner. *)
Lemma matches_owner (email : string) (d : doc) :
  matches (obj [("userEmail", JStr email)]) d = owned_by email d.
Proof.
  unfold obj, obj_fields, owned_by.
  cbn [fold_left fst snd set_field matches forallb].
  destruct (lookup "userEmail" d) as [x|]; [|reflexivity].
  rewrite andb_true_r. unfold field_matches.
  change ("userEmail" =? "_id") with false. cbn [negb andb].
  destruct x as [ | | y | y | y | y | items | fs]; try reflexivity.
  - cbn [value_eqb]. apply orb_false_r.
  - cbn [value_eqb orb].
    induction items as [|y items IH]; [reflexivity|].
    cbn [existsb]. now rewrite value_eqb_string, IH.
Qed.

Lemma matches_all (d : doc) : matches (obj []) d = true.
Proof. reflexivity. Qed.

Lemma filter_all (c : list doc) : List.filter (matches (obj [])) c = c.
Proof.
  induction c as [|d c IH]; [reflexivity|].
  cbn [List.filter]. rewrite matches_all. now rewrite IH.
Qed.

Lemma length_zero_nil {A} (l : list A) :
  (List.length l =? 0)%nat = match l with [] => true | _ => false end.
Proof. now destruct l. Qed.

(** ** The session guard *)

Section Guard.

Variables (sv : services) (req : request) (w : world) (email : string).

Hypothesis routed : route (method req) (path req) = Some (EpListByOwner email).

(** X1.  Without a truthy [token] cookie the guarded route answers 403
    "Unauthorized access. Please login to continue"; the token library
    and the collection are not asked anything. *)
Theorem guard_without_token :
  truthy (get "token" (cookies req)) = false ->
  app sv req w
  = (json 403
       (obj [("success", JBool false);
             ("message",
              JStr "Unauthorized access. Please login to continue")]), w).
Proof.
  intros Ht. unfold app. rewrite routed. cbn [handle].
  unfold verifyToken. now rewrite Ht.
Qed.

(** X2.  With a token that [jwt.verify] rejects the guarded route answers
    403 "Access forbidden" and the collection is not asked anything. *)
Theorem guard_rejected_token (e : error) :
  truthy (get "token" (cookies req)) = true ->
  jwt_verify sv (get "token" (cookies req)) = Throw e ->
  app sv req w
  = (json 403 (obj [("success", JBool false);
                    ("message", JStr "Access forbidden")]), w).
Proof.
  intros Ht Hv. unfold app. rewrite routed. cbn [handle].
  unfold verifyToken. now rewrite Ht, Hv.
Qed.

(** The guarded route, once the guard has let the owner through. *)
Lemma owner_listing_run (decoded : value) :
  truthy (get "token" (cookies req)) = true ->
  jwt_verify sv (get "token" (cookies req)) = Ok decoded ->
  get "user" decoded = JStr email ->
  let query := obj [("userEmail", JStr email)] in
  let mine := List.filter (matches query) (collection w) in
  app sv req w
  = (match mine with
     | [] => json 404
               (obj [("success", JBool false);
                     ("message", JStr "No data found for the provided email.")])
     | _ => json 200 (obj [("success", JBool true);
                           ("data", JArr (map JObj mine))])
     end, record (DbFind query) w).
Proof.
  intros Ht Hv Hu query mine.
  destruct (route_owner_email _ _ _ routed) as [_ [_ He]].
  unfold app. rewrite routed. cbn [handle].
  unfold verifyToken. rewrite Ht, Hv. cbn [negb].
  unfold get_user_tourist_spots. rewrite Hu.
  change (truthy (JStr email)) with (negb (email =? "")). rewrite He.
  cbn [negb strict_eq_string]. rewrite String.eqb_refl. cbn [negb].
  run_handler. fold query. fold mine.
  rewrite length_map, length_zero_nil.
  destruct mine; reflexivity.
Qed.

(** X3.  A verified owner gets, after one [find] with the filter
    [{userEmail: email}], exactly the documents of the collection whose
    [userEmail] is the [:email] of the path or an array that has it, in
    the order of the collection: 200 with them when there are some, 404
    when there are none. *)
Theorem owner_listing_scoped (decoded : value) :
  truthy (get "token" (cookies req)) = true ->
  jwt_verify sv (get "token" (cookies req)) = Ok decoded ->
  get "user" decoded = JStr email ->
  let mine := List.filter (owned_by email) (collection w) in
  app sv req w
  = (match mine with
     | [] => json 404
               (obj [("success", JBool false);
                     ("message", JStr "No data found for the provided email.")])
     | _ => json 200 (obj [("success", JBool true);
                           ("data", JArr (map JObj mine))])
     end, record (DbFind (obj [("userEmail", JStr email)])) w).
Proof.
  intros Ht Hv Hu mine. subst mine.
  rewrite (owner_listing_run decoded Ht Hv Hu).
  now rewrite (filter_ext _ _ (matches_owner email)).
Qed.

(** X4.  For a verified owner the guarded listing answers as the listing
    of the version without session tokens does for the same [:email]. *)
Theorem guarded_listing_as_unguarded (decoded : value) :
  truthy (get "token" (cookies req)) = true ->
  jwt_verify sv (get "token" (cookies req)) = Ok decoded ->
  get "user" decoded = JStr email ->
  app sv req w = get_user_tourist_spots_unguarded email w.
Proof.
  intros Ht Hv Hu.
  destruct (route_owner_email _ _ _ routed) as [_ [_ He]].
  rewrite (owner_listing_run decoded Ht Hv Hu).
  unfold get_user_tourist_spots_unguarded.
  change (truthy (JStr email)) with (negb (email =? "")). rewrite He.
  cbn [negb]. run_handler.
  rewrite length_map, length_zero_nil.
  destruct (List.filter _ (collection w)); reflexivity.
Qed.

End Guard.

Lemma guard_without_token_witness :
  app sample_services
    (mkRequest GET ["tourist-spot"; "user"; "a@x.com"] JUndefined (obj []))
    reef_world
  = (json 403
       (obj [("success", JBool false);
             ("message",
              JStr "Unauthorized access. Please login to continue")]),
     reef_world).
Proof.
  apply (guard_without_token sample_services
           (mkRequest GET ["tourist-spot"; "user"; "a@x.com"] JUndefined
              (obj [])) reef_world "a@x.com"); reflexivity.
Defined.

Lemma guard_rejected_token_witness :
  app sample_services
    (mkRequest GET ["tourist-spot"; "user"; "a@x.com"] JUndefined
       (session "forged")) reef_world
  = (json 403 (obj [("success", JBool false);
                    ("message", JStr "Access forbidden")]), reef_world).
Proof.
  apply (guard_rejected_token sample_services
           (mkRequest GET ["tourist-spot"; "user"; "a@x.com"] JUndefined
              (session "forged")) reef_world "a@x.com" eq_refl
           "JsonWebTokenError: invalid token"); reflexivity.
Defined.

(** A world where the dune has two owners. *)
Lemma owner_listing_scoped_witness :
  let shared : doc :=
    [("_id", JOid "000000000000000000000002"); ("spot_name", JStr "Shore");
     ("userEmail", JArr [JStr "b@x.com"; JStr "c@x.com"])] in
  let w := mkWorld [reef; shared; dune] 3 [] in
  app sample_services
    (mkRequest GET ["tourist-spot"; "user"; "b@x.com"] JUndefined
       (session "jwt:b@x.com")) w
  = (json 200 (obj [("success", JBool true);
                    ("data", JArr [JObj shared; JObj dune])]),
     record (DbFind (obj [("userEmail", JStr "b@x.com")])) w).
Proof.
  intros shared w.
  apply (owner_listing_scoped sample_services
           (mkRequest GET ["tourist-spot"; "user"; "b@x.com"] JUndefined
              (session "jwt:b@x.com")) w "b@x.com" eq_refl
           (obj [("user", JStr "b@x.com")])); reflexivity.
Defined.

Lemma guarded_listing_as_unguarded_witness :
  app sample_services
    (mkRequest GET ["tourist-spot"; "user"; "b@x.com"] JUndefined
       (session "jwt:b@x.com")) coast_world
  = get_user_tourist_spots_unguarded "b@x.com" coast_world.
Proof.
  apply (guarded_listing_as_unguarded sample_services
           (mkRequest GET ["tourist-spot"; "user"; "b@x.com"] JUndefined
              (session "jwt:b@x.com")) coast_world "b@x.com" eq_refl
           (obj [("user", JStr "b@x.com")])); reflexivity.
Defined.

(** ** Reading the collection *)

(** X5.  On a collection that has documents GET /tourist-spot answers 200
    with all of them, in the order of the collection, after one [find]
    with the empty filter. *)
Theorem listAll_everything (sv : services) (b c : value) (w : world) :
  collection w <> [] ->
  app sv (mkRequest GET ["tourist-spot"] b c) w
  = (json 200 (obj [("success", JBool true);
                    ("data", JArr (map JObj (collection w)))]),
     record (DbFind (obj [])) w).
Proof.
  intros Hne. unfold app. cbn [method path].
  change (route GET ["tourist-spot"]) with (Some EpListAll). cbn [handle].
  unfold get_tourist_spots. run_handler.
  rewrite filter_all, length_map, length_zero_nil.
  destruct (collection w); [contradiction|reflexivity].
Qed.

Lemma listAll_everything_witness :
  app sample_services (mkRequest GET ["tourist-spot"] JUndefined JUndefined)
    coast_world
  = (json 200 (obj [("success", JBool true);
                    ("data", JArr (map JObj (collection coast_world)))]),
     record (DbFind (obj [])) coast_world).
Proof.
  apply (listAll_everything sample_services JUndefined JUndefined coast_world).
  discriminate.
Defined.

(** The lookup by identifier, once the identifier has parsed. *)
Lemma get_tourist_spot_run (id : string) (oid : value) (w : world) :
  ObjectId id = Some oid ->
  get_tourist_spot id w
  = (match List.find (matches (obj [("_id", oid)])) (collection w) with
     | Some d => json 200 (obj [("success", JBool true); ("data", JObj d)])
     | None => json 404 (obj [("success", JBool false);
                              ("message", JStr "No data found")])
     end, record (DbFindOne (obj [("_id", oid)])) w).
Proof.
  intros Hid. unfold get_tourist_spot, try_next, bind, new_ObjectId.
  rewrite Hid. run_handler. unfold first_match.
  destruct (List.find _ (collection w)); reflexivity.
Qed.

(** X6.  GET /tourist-spot/:id with an identifier that parses makes one
    [findOne] and answers 200 with the first document whose [_id] is that
    ObjectId, or 404 "No data found" when no document has it. *)
Theorem getById_found_or_404 (sv : services) (id : string) (oid b c : value)
    (w : world) :
  ObjectId id = Some oid ->
  (exists d, In d (collection w) /\ lookup "_id" d = Some oid
             /\ app sv (mkRequest GET ["tourist-spot"; id] b c) w
                = (json 200 (obj [("success", JBool true); ("data", JObj d)]),
                   record (DbFindOne (obj [("_id", oid)])) w))
  \/ ((forall d, In d (collection w) -> lookup "_id" d <> Some oid)
      /\ app sv (mkRequest GET ["tourist-spot"; id] b c) w
         = (json 404 (obj [("success", JBool false);
                           ("message", JStr "No data found")]),
            record (DbFindOne (obj [("_id", oid)])) w)).
Proof.
  intros Hid. unfold app. cbn [method path].
  rewrite (route_by_id GET id (ObjectId_not_empty _ _ Hid)). cbn [handle].
  rewrite (get_tourist_spot_run id oid w Hid).
  destruct (List.find (matches (obj [("_id", oid)])) (collection w))
    as [d|] eqn:Hf.
  - left. exists d. apply find_some in Hf. destruct Hf as [Hin Hm].
    apply matches_id_iff in Hm. auto.
  - right. split; [|reflexivity].
    intros d Hin Hd. apply matches_id_iff in Hd.
    pose proof (find_none _ _ Hf d Hin) as Hn. congruence.
Qed.

Lemma getById_found_or_404_witness :
  (exists d, In d (collection coast_world)
             /\ lookup "_id" d = Some (JOid "000000000000000000000001")
             /\ app sample_services
                  (mkRequest GET ["tourist-spot"; "000000000000000000000001"]
                     JUndefined JUndefined) coast_world
                = (json 200 (obj [("success", JBool true); ("data", JObj d)]),
                   record (DbFindOne
                             (obj [("_id", JOid "000000000000000000000001")]))
                     coast_world))
  \/ ((forall d, In d (collection coast_world) ->
                 lookup "_id" d <> Some (JOid "000000000000000000000001"))
      /\ app sample_services
           (mkRequest GET ["tourist-spot"; "000000000000000000000001"]
              JUndefined JUndefined) coast_world
         = (json 404 (obj [("success", JBool false);
                           ("message", JStr "No data found")]),
            record (DbFindOne (obj [("_id", JOid "000000000000000000000001")]))
              coast_world)).
Proof.
  apply (getById_found_or_404 sample_services "000000000000000000000001"
           (JOid "000000000000000000000001") JUndefined JUndefined coast_world).
  reflexivity.
Defined.

(** X7.  An identifier that does not parse as an ObjectId stops the
    lookup, the deletion and the update (of a body that can be
    destructured) before any call: the BSON error goes to [next] and the
    world is as before. *)
Theorem malformed_id_no_call (sv : services) (m : http_method) (id : string)
    (b c : value) (w : world) :
  ObjectId id = None -> id <> "" -> m <> POST ->
  (m = PATCH -> nullish b = false) ->
  app sv (mkRequest m ["tourist-spot"; id] b c) w
  = (NextErr "BSONError: input must be a 24 character hex string", w).
Proof.
  intros Hid Hne Hm Hb. unfold app. cbn [method path].
  assert (He : (id =? "") = false).
  { destruct (id =? "") eqn:E; auto. apply String.eqb_eq in E. contradiction. }
  rewrite (route_by_id m id He).
  destruct m; try contradiction; cbn [handle].
  - unfold get_tourist_spot, try_next, bind, new_ObjectId. now rewrite Hid.
  - unfold patch_tourist_spot. cbn [body]. rewrite (Hb eq_refl).
    unfold try_next, bind, new_ObjectId. now rewrite Hid.
  - unfold delete_tourist_spot, try_next, bind, new_ObjectId. now rewrite Hid.
Qed.

Lemma malformed_id_no_call_witness :
  app sample_services
    (mkRequest DELETE ["tourist-spot"; "reef"] JUndefined JUndefined) reef_world
  = (NextErr "BSONError: input must be a 24 character hex string", reef_world).
Proof.
  apply (malformed_id_no_call sample_services DELETE "reef" JUndefined
           JUndefined reef_world); try reflexivity; discriminate.
Defined.

(** ** Creating *)

Lemma lookup_remove_field_ne (k k0 : string) (fs : list (string * value)) :
  k <> k0 -> lookup k (remove_field k0 fs) = lookup k fs.
Proof.
  intros Hne. induction fs as [|[l x] fs IH]; [reflexivity|].
  cbn [remove_field lookup]. destruct (k0 =? l) eqn:E.
  - apply String.eqb_eq in E. subst l.
    destruct (k =? k0) eqn:E'; auto.
    apply String.eqb_eq in E'. contradiction.
  - cbn [lookup]. now rewrite IH.
Qed.

Lemma has_id_member (v : value) (c : list doc) (d : doc) :
  In d c -> lookup "_id" d = Some v -> existsb (has_id v) c = true.
Proof.
  intros Hin Hd. apply existsb_exists. exists d. split; auto.
  unfold has_id. rewrite Hd. apply value_eqb_refl.
Qed.

Section Create.

Variables (sv : services) (fields : list (string * value)) (ck : value)
  (w : world).

Local Abbreviation given := (get "_id" (JObj fields)).
Local Abbreviation inserted_id :=
  (if nullish given then createPk (pk_counter w) else given).

(** The creation of an object body, case by case. *)
Lemma create_run :
  app sv (mkRequest POST ["tourist-spot"] (JObj fields) ck) w
  = if existsb (has_id inserted_id) (collection w)
    then (NextErr "E11000 duplicate key error",
          record (DbInsertOne (JObj fields)) w)
    else if is_array inserted_id
    then (NextErr "The _id value cannot be of type array",
          record (DbInsertOne (JObj fields)) w)
    else ((if truthy inserted_id
           then json 201
                  (obj [("success", JBool true);
                        ("message", JStr "Tourist spot added successfully");
                        ("id", inserted_id)])
           else json 500
                  (obj [("success", JBool false);
                        ("message", JStr "Failed to add new tourist spot")])),
          mkWorld
            (collection w ++ [("_id", inserted_id) :: remove_field "_id" fields])
            (if nullish given then (pk_counter w + 1)%N else pk_counter w)
            (log w ++ [DbInsertOne (JObj fields)])).
Proof.
  unfold app. cbn [method path].
  change (route POST ["tourist-spot"]) with (Some EpCreate).
  cbn [handle]. unfold post_tourist_spot. cbn [body]. run_handler. cbv zeta.
  destruct (existsb (has_id inserted_id) (collection w)); [reflexivity|].
  destruct (is_array inserted_id); [reflexivity|].
  rewrite insertedId_get.
  destruct (truthy inserted_id); reflexivity.
Qed.

(** X8.  A body that brings the [_id] of a stored document is refused by
    the collection: the duplicate-key error goes to [next] and the
    collection is as before. *)
Theorem create_duplicate_id (d : doc) :
  nullish given = false ->
  In d (collection w) -> lookup "_id" d = Some given ->
  app sv (mkRequest POST ["tourist-spot"] (JObj fields) ck) w
  = (NextErr "E11000 duplicate key error",
     record (DbInsertOne (JObj fields)) w).
Proof.
  intros Hn Hin Hd. rewrite create_run, Hn.
  now rewrite (has_id_member _ _ _ Hin Hd).
Qed.

(** X9.  A creation that is answered appended one document to the
    collection and left the others in place; the new document has every
    field of the body other than [_id] as it was sent, [userEmail]
    included, and a 201 carries its [_id] as [id]. *)
Theorem create_appends_body (r : response) (w' : world) :
  app sv (mkRequest POST ["tourist-spot"] (JObj fields) ck) w
  = (Responded r, w') ->
  exists d,
    collection w' = collection w ++ [d]
    /\ (forall k, k <> "_id" -> lookup k d = lookup k fields)
    /\ (status r = 201 -> lookup "_id" d = Some (get "id" (res_body r))).
Proof.
  rewrite create_run.
  destruct (existsb (has_id inserted_id) (collection w)); [discriminate|].
  destruct (is_array inserted_id); [discriminate|].
  intros [= Hr <-].
  exists (("_id", inserted_id) :: remove_field "_id" fields).
  split; [reflexivity|split].
  - intros k Hk. cbn [lookup].
    destruct (k =? "_id") eqn:E.
    + apply String.eqb_eq in E. contradiction.
    + now apply lookup_remove_field_ne.
  - revert Hr. unfold json. destruct (truthy _).
    + intros Hr _. injection Hr as Hr. subst r. reflexivity.
    + intros Hr. injection Hr as Hr. subst r. discriminate.
Qed.


End Create.

Lemma create_duplicate_id_witness :
  app sample_services
    (mkRequest POST ["tourist-spot"]
       (JObj [("_id", JStr "pier"); ("spot_name", JStr "Pier")]) JUndefined)
    (mkWorld [[("_id", JStr "pier"); ("spot_name", JStr "Old pier")]] 0 [])
  = (NextErr "E11000 duplicate key error",
     record (DbInsertOne
               (JObj [("_id", JStr "pier"); ("spot_name", JStr "Pier")]))
       (mkWorld [[("_id", JStr "pier"); ("spot_name", JStr "Old pier")]] 0 [])).
Proof.
  apply (create_duplicate_id sample_services
           [("_id", JStr "pier"); ("spot_name", JStr "Pier")] JUndefined
           (mkWorld [[("_id", JStr "pier"); ("spot_name", JStr "Old pier")]]
              0 [])
           [("_id", JStr "pier"); ("spot_name", JStr "Old pier")]).
  - reflexivity.
  - left. reflexivity.
  - reflexivity.
Defined.

Lemma create_appends_body_witness :
  exists d,
    collection
      (mkWorld [reef; [("_id", JOid "000000000000000000000001");
                       ("spot_name", JStr "Dune");
                       ("userEmail", JStr "b@x.com")]] 2
         [DbInsertOne (JObj [("spot_name", JStr "Dune");
                             ("userEmail", JStr "b@x.com")])])
    = collection reef_world ++ [d]
    /\ (forall k, k <> "_id" ->
          lookup k d
          = lookup k [("spot_name", JStr "Dune"); ("userEmail", JStr "b@x.com")])
    /\ (201 = 201 -> lookup "_id" d = Some (JOid "000000000000000000000001")).
Proof.
  apply (create_appends_body sample_services
           [("spot_name", JStr "Dune"); ("userEmail", JStr "b@x.com")]
           JUndefined reef_world
           (mkResponse 201
              (obj [("success", JBool true);
                    ("message", JStr "Tourist spot added successfully");
                    ("id", JOid "000000000000000000000001")]) NoCookie)).
  reflexivity.
Defined.


(** ** Deleting *)

Lemma remove_first_no_match (f : value) (c : list doc) :
  List.find (matches f) c = None -> remove_first f c = (c, 0%Z).
Proof.
  induction c as [|d c IH]; cbn [List.find remove_first]; auto.
  destruct (matches f d); [discriminate|].
  intros H. now rewrite (IH H).
Qed.

Lemma remove_first_match (f : value) (c : list doc) (d : doc) :
  List.find (matches f) c = Some d ->
  snd (remove_first f c) = 1%Z
  /\ List.length c = S (List.length (fst (remove_first f c))).
Proof.
  induction c as [|d0 c IH]; cbn [List.find remove_first]; [discriminate|].
  destruct (matches f d0); [intros _; split; reflexivity|].
  intros H. destruct (IH H) as [H1 H2].
  destruct (remove_first f c) as [r n]. cbn [fst snd List.length] in *. auto.
Qed.

(** What [deleteOne] removes is the first match, and nothing else. *)
Lemma remove_first_split (f : value) (c : list doc) (d : doc) :
  List.find (matches f) c = Some d ->
  exists c1 c2,
    c = c1 ++ d :: c2
    /\ (forall x, In x c1 -> matches f x = false)
    /\ fst (remove_first f c) = c1 ++ c2.
Proof.
  induction c as [|d0 c IH]; cbn [List.find remove_first]; [discriminate|].
  destruct (matches f d0) eqn:Hm.
  - intros [= ->]. exists [], c. repeat split. intros x [].
  - intros H. destruct (IH H) as [c1 [c2 [E [Hn Hr]]]].
    exists (d0 :: c1), c2. destruct (remove_first f c) as [r n].
    cbn [fst] in *. subst r. rewrite E at 1. repeat split.
    intros x [<-|Hx]; auto.
Qed.

(** On a collection with unique identifiers the removed document was the
    only one with its identifier. *)
Lemma remove_first_gone (oid : value) (c : list doc) :
  unique_ids c ->
  List.find (matches (obj [("_id", oid)])) (fst (remove_first (obj [("_id", oid)]) c))
  = None.
Proof.
  unfold unique_ids.
  induction c as [|d c IH]; cbn [remove_first map]; [reflexivity|].
  intros Hnd. inversion Hnd as [|? ? Hn Hnd']; subst.
  destruct (matches (obj [("_id", oid)]) d) eqn:Hm; cbn [fst].
  - apply matches_id_iff in Hm.
    destruct (List.find _ c) as [d'|] eqn:Hf; [|reflexivity].
    apply find_some in Hf. destruct Hf as [Hin Hm'].
    apply matches_id_iff in Hm'. exfalso. apply Hn.
    rewrite Hm, <- Hm'. now apply in_map.
  - specialize (IH Hnd'). destruct (remove_first _ c) as [r n].
    cbn [fst List.find] in *. now rewrite Hm.
Qed.

Section Delete.

Variables (sv : services) (id : string) (oid b c : value) (w : world).

Hypothesis parsed : ObjectId id = Some oid.

Local Abbreviation filter := (obj [("_id", oid)]).
Local Abbreviation tourist_spot := (first_match filter (collection w)).
Local Abbreviation public_id := (stored_public_id tourist_spot).
Local Abbreviation removed := (remove_first filter (collection w)).
Local Abbreviation answer :=
  (if (snd removed =? 0)%Z
   then json 404 (JObj [("success", JStr "No data found to delete")])
   else json 200 (obj [("success", JBool true);
                       ("message", JStr "Tourist spot deleted successfully")])).

(** The deletion, once the identifier has parsed, case by case. *)
Lemma delete_run :
  app sv (mkRequest DELETE ["tourist-spot"; id] b c) w
  = if truthy public_id then
      match cloud_destroy sv public_id with
      | Ok _ =>
          (answer,
           mkWorld (fst removed) (pk_counter w)
             (log w ++ [DbFindOne filter; CloudDestroy public_id;
                        DbDeleteOne filter]))
      | Throw e =>
          (NextErr e,
           mkWorld (collection w) (pk_counter w)
             (log w ++ [DbFindOne filter; CloudDestroy public_id]))
      end
    else
      (answer,
       mkWorld (fst removed) (pk_counter w)
         (log w ++ [DbFindOne filter; DbDeleteOne filter])).
Proof.
  unfold app. cbn [method path].
  rewrite (route_by_id DELETE id (ObjectId_not_empty _ _ parsed)).
  cbn [handle].
  unfold delete_tourist_spot, try_next, bind, new_ObjectId. rewrite parsed.
  run_handler. fold (stored_public_id tourist_spot).
  destruct (truthy public_id).
  - destruct (cloud_destroy sv public_id) as [res|e].
    + unfold record. cbn [collection pk_counter log].
      destruct removed as [c' n]. cbn [fst snd].
      repeat rewrite <- app_assoc. cbn [List.app].
      destruct (n =? 0)%Z eqn:En; simpl; rewrite En; reflexivity.
    + unfold record. cbn [collection pk_counter log].
      repeat rewrite <- app_assoc. reflexivity.
  - unfold record. cbn [collection pk_counter log].
    destruct removed as [c' n]. cbn [fst snd].
    repeat rewrite <- app_assoc. cbn [List.app].
    destruct (n =? 0)%Z eqn:En; simpl; rewrite En; reflexivity.
Qed.

(** X11.  Deleting a stored document whose cleanup does not fail answers
    200 and removes that document, the first that has the identifier,
    and no other: the documents before it and after it stay, in their
    order.  The calls are [findOne], then [destroy] with the [public_id]
    stored in the document if there is one, then [deleteOne]. *)
Theorem delete_existing (d : doc) :
  List.find (matches filter) (collection w) = Some d ->
  delete_cleanup_ok sv (JObj d) = true ->
  let after := app sv (mkRequest DELETE ["tourist-spot"; id] b c) w in
  fst after
  = json 200 (obj [("success", JBool true);
                   ("message", JStr "Tourist spot deleted successfully")])
  /\ log (snd after)
     = log w ++ [DbFindOne filter]
       ++ (if truthy (stored_public_id (JObj d))
           then [CloudDestroy (stored_public_id (JObj d))] else [])
       ++ [DbDeleteOne filter]
  /\ exists before_it after_it,
       collection w = before_it ++ d :: after_it
       /\ (forall x, In x before_it -> lookup "_id" x <> Some oid)
       /\ collection (snd after) = before_it ++ after_it.
Proof.
  intros Hf Hc after. subst after. rewrite delete_run.
  unfold first_match. rewrite Hf.
  destruct (remove_first_match _ _ _ Hf) as [Hn _].
  destruct (remove_first_split _ _ _ Hf) as [c1 [c2 [E [Hnone Hr]]]].
  assert (Hids : forall x, In x c1 -> lookup "_id" x <> Some oid).
  { intros x Hx Hid. apply matches_id_iff in Hid.
    rewrite (Hnone x Hx) in Hid. discriminate. }
  unfold delete_cleanup_ok in Hc.
  destruct (truthy (stored_public_id (JObj d))); cbn [negb orb] in Hc.
  - destruct (cloud_destroy sv (stored_public_id (JObj d))); [|discriminate].
    cbn [fst snd log collection]. rewrite Hn.
    repeat split. exists c1, c2. auto.
  - cbn [fst snd log collection]. rewrite Hn.
    repeat split. exists c1, c2. auto.
Qed.

(** X12.  After such a deletion on a collection with unique identifiers,
    the lookup of the same identifier answers 404. *)
Theorem delete_then_getById (d : doc) (b' c' : value) :
  unique_ids (collection w) ->
  List.find (matches filter) (collection w) = Some d ->
  delete_cleanup_ok sv (JObj d) = true ->
  fst (app sv (mkRequest GET ["tourist-spot"; id] b' c')
         (snd (app sv (mkRequest DELETE ["tourist-spot"; id] b c) w)))
  = json 404 (obj [("success", JBool false);
                   ("message", JStr "No data found")]).
Proof.
  intros Hu Hf Hc.
  assert (E : collection (snd (app sv (mkRequest DELETE ["tourist-spot"; id] b c) w))
              = fst removed).
  { rewrite delete_run. unfold first_match. rewrite Hf.
    unfold delete_cleanup_ok in Hc.
    destruct (truthy (stored_public_id (JObj d))); cbn [negb orb] in Hc.
    - destruct (cloud_destroy sv (stored_public_id (JObj d)));
        [reflexivity|discriminate].
    - reflexivity. }
  unfold app at 1. cbn [method path].
  rewrite (route_by_id GET id (ObjectId_not_empty _ _ parsed)). cbn [handle].
  rewrite (get_tourist_spot_run id oid _ parsed), E.
  now rewrite (remove_first_gone oid (collection w) Hu).
Qed.

(** X13.  Deleting an identifier that no document has answers 404 and
    leaves the collection as it is, so that the same deletion again gets
    the same answer; [destroy] is not called. *)
Theorem delete_missing_idempotent :
  List.find (matches filter) (collection w) = None ->
  let once := app sv (mkRequest DELETE ["tourist-spot"; id] b c) w in
  let twice := app sv (mkRequest DELETE ["tourist-spot"; id] b c) (snd once) in
  fst once = json 404 (JObj [("success", JStr "No data found to delete")])
  /\ fst twice = fst once
  /\ collection (snd once) = collection w
  /\ collection (snd twice) = collection w
  /\ log (snd once) = log w ++ [DbFindOne filter; DbDeleteOne filter].
Proof.
  intros Hf.
  assert (Hone : forall w0, collection w0 = collection w ->
            app sv (mkRequest DELETE ["tourist-spot"; id] b c) w0
            = (json 404 (JObj [("success", JStr "No data found to delete")]),
               mkWorld (collection w) (pk_counter w0)
                 (log w0 ++ [DbFindOne filter; DbDeleteOne filter]))).
  { intros w0 E. unfold app. cbn [method path].
    rewrite (route_by_id DELETE id (ObjectId_not_empty _ _ parsed)).
    cbn [handle].
    unfold delete_tourist_spot, try_next, bind, new_ObjectId. rewrite parsed.
    run_handler. rewrite E. unfold first_match. rewrite Hf.
    cbn [get truthy record collection pk_counter log]. rewrite E.
    rewrite (remove_first_no_match _ _ Hf).
    repeat rewrite <- app_assoc. reflexivity. }
  intros once twice. subst twice once.
  rewrite (Hone w eq_refl). cbn [fst snd].
  match goal with
  | |- context [app sv _ ?w1] => rewrite (Hone w1 eq_refl)
  end.
  cbn [fst snd collection log]. auto.
Qed.

(** X14.  When [destroy] rejects, the deletion stops: the error goes to
    [next], [deleteOne] is not called and the document stays. *)
Theorem delete_cleanup_fails (d : doc) (e : error) :
  List.find (matches filter) (collection w) = Some d ->
  truthy (stored_public_id (JObj d)) = true ->
  cloud_destroy sv (stored_public_id (JObj d)) = Throw e ->
  app sv (mkRequest DELETE ["tourist-spot"; id] b c) w
  = (NextErr e,
     mkWorld (collection w) (pk_counter w)
       (log w ++ [DbFindOne filter; CloudDestroy (stored_public_id (JObj d))])).
Proof.
  intros Hf Ht He. rewrite delete_run. unfold first_match.
  now rewrite Hf, Ht, He.
Qed.

End Delete.

Lemma delete_existing_witness :
  let after := app sample_services
                 (mkRequest DELETE ["tourist-spot"; "000000000000000000000001"]
                    JUndefined JUndefined) coast_world in
  let filter := obj [("_id", JOid "000000000000000000000001")] in
  fst after
  = json 200 (obj [("success", JBool true);
                   ("message", JStr "Tourist spot deleted successfully")])
  /\ log (snd after)
     = log coast_world ++ [DbFindOne filter]
       ++ (if truthy (stored_public_id (JObj dune))
           then [CloudDestroy (stored_public_id (JObj dune))] else [])
       ++ [DbDeleteOne filter]
  /\ exists before_it after_it,
       collection coast_world = before_it ++ dune :: after_it
       /\ (forall x, In x before_it ->
             lookup "_id" x <> Some (JOid "000000000000000000000001"))
       /\ collection (snd after) = before_it ++ after_it.
Proof.
  apply (delete_existing sample_services "000000000000000000000001"
           (JOid "000000000000000000000001") JUndefined JUndefined coast_world
           eq_refl dune); reflexivity.
Defined.

Lemma delete_then_getById_witness :
  fst (app sample_services
         (mkRequest GET ["tourist-spot"; reef_id] JUndefined JUndefined)
         (snd (app sample_services
                 (mkRequest DELETE ["tourist-spot"; reef_id] JUndefined
                    JUndefined) coast_world)))
  = json 404 (obj [("success", JBool false);
                   ("message", JStr "No data found")]).
Proof.
  apply (delete_then_getById sample_services reef_id (JOid reef_id)
           JUndefined JUndefined coast_world eq_refl reef).
  - repeat constructor; simpl; intuition discriminate.
  - reflexivity.
  - reflexivity.
Defined.

Lemma delete_missing_idempotent_witness :
  let del := mkRequest DELETE ["tourist-spot"; "000000000000000000000007"]
               JUndefined JUndefined in
  let filter := obj [("_id", JOid "000000000000000000000007")] in
  let once := app sample_services del coast_world in
  let twice := app sample_services del (snd once) in
  fst once = json 404 (JObj [("success", JStr "No data found to delete")])
  /\ fst twice = fst once
  /\ collection (snd once) = collection coast_world
  /\ collection (snd twice) = collection coast_world
  /\ log (snd once)
     = log coast_world ++ [DbFindOne filter; DbDeleteOne filter].
Proof.
  apply (delete_missing_idempotent sample_services
           "000000000000000000000007" (JOid "000000000000000000000007")
           JUndefined JUndefined coast_world eq_refl).
  reflexivity.
Defined.

Lemma delete_cleanup_fails_witness :
  app unreachable_cloud
    (mkRequest DELETE ["tourist-spot"; reef_id] JUndefined JUndefined)
    reef_world
  = (NextErr "cloudinary: request failed",
     mkWorld [reef] 1
       [DbFindOne (obj [("_id", JOid reef_id)]); CloudDestroy (JStr "img123")]).
Proof.
  apply (delete_cleanup_fails unreachable_cloud reef_id (JOid reef_id)
           JUndefined JUndefined reef_world eq_refl reef
           "cloudinary: request failed"); reflexivity.
Defined.

(** ** Updating *)

Lemma set_field_same (k : string) (v : value) (fs : list (string * value)) :
  lookup k fs = Some v -> set_field k v fs = fs.
Proof.
  induction fs as [|[l x] fs IH]; cbn [lookup set_field]; [discriminate|].
  destruct (k =? l).
  - now intros [= ->].
  - intros H. now rewrite (IH H).
Qed.

Lemma assign_held (kvs d : list (string * value)) :
  (forall k v, In (k, v) kvs -> lookup k d = Some v) ->
  fold_left (fun d' kv => set_field (fst kv) (snd kv) d') kvs d = d.
Proof.
  induction kvs as [|[k v] kvs IH]; intros H; cbn [fold_left fst snd]; auto.
  rewrite (set_field_same k v d) by (apply H; now left).
  apply IH. intros k' v' Hin. apply H. now right.
Qed.

Lemma lookup_listed (k : string) (v : value) (kvs : list (string * value)) :
  NoDup (keys kvs) -> In (k, v) kvs -> lookup k kvs = Some v.
Proof.
  induction kvs as [|[l x] kvs IH]; cbn [keys map fst lookup In];
    [contradiction|].
  intros Hnd [E|Hin]; inversion Hnd as [|? ? Hl Hnd']; subst.
  - injection E as -> ->. now rewrite String.eqb_refl.
  - destruct (k =? l) eqn:Ek; [|now apply IH].
    apply String.eqb_eq in Ek. subst l. exfalso. apply Hl.
    change k with (fst (k, v)). now apply in_map.
Qed.

(** Assigning the fields of an update a second time changes nothing. *)
Lemma apply_set_idempotent (updateInfo : value) (d : doc) :
  let updateDoc := obj [("$set", updateFields updateInfo)] in
  apply_set updateDoc (apply_set updateDoc d) = apply_set updateDoc d.
Proof.
  intros updateDoc. subst updateDoc.
  rewrite (apply_set_updateFields updateInfo (apply_set _ d)).
  apply assign_held. intros k v Hin.
  rewrite apply_set_updateFields, lookup_assign_listed.
  - apply lookup_listed; [|exact Hin].
    rewrite stored_fields_keys. apply updateFields_NoDup.
  - rewrite stored_fields_keys. apply updateFields_NoDup.
  - change k with (fst (k, v)). now apply in_map.
Qed.

Lemma lookup_img_last (updateInfo v : value) :
  lookup "imgHostingInfo"
    (map (fun k => (k, get k updateInfo)) editable_fields
     ++ [("imgHostingInfo", v)])
  = Some v.
Proof. reflexivity. Qed.

Section UpdateFurther.

Variables (sv : services) (id : string) (req : request) (w : world).

Local Abbreviation filter_of oid := (obj [("_id", oid)]).
Local Abbreviation updateDoc := (obj [("$set", updateFields (body req))]).
Local Abbreviation updated :=
  (json 200 (obj [("success", JBool true);
                  ("message", JStr "Tourist spot updated successfully")])).
Local Abbreviation failed :=
  (json 500 (obj [("success", JBool false);
                  ("message", JStr "Failed to update this document data")])).

(** X15.  An update that is answered, sent again at once, is answered 500
    "Failed to update this document data": the second time there is
    nothing left to modify. *)
Theorem update_again_500 (r : response) (w' : world) :
  patch_tourist_spot sv id req w = (Responded r, w') ->
  fst (patch_tourist_spot sv id req w') = failed.
Proof.
  intros H. destruct (patch_responded _ _ _ _ _ _ H) as [Hb [Hc [oid Hid]]].
  rewrite (patch_reaches_update sv id req w oid Hb Hid Hc) in H.
  injection H as _ <-.
  rewrite (patch_reaches_update sv id req _ oid Hb Hid Hc).
  cbn [fst collection].
  assert (Hz : snd (snd (update_first (filter_of oid) updateDoc
                           (fst (update_first (filter_of oid) updateDoc
                                   (collection w))))) = 0%Z).
  { pose proof (update_first_find (filter_of oid) updateDoc (collection w)
                  (fun d0 => matches_id_apply_set oid (body req) d0)) as Hf.
    destruct (List.find (matches (filter_of oid)) (collection w)) as [d|];
      cbn [option_map] in Hf.
    - rewrite (update_first_same_values _ _ _ _ Hf); [reflexivity|].
      apply apply_set_idempotent.
    - now rewrite (update_first_no_match _ _ _ Hf). }
  now rewrite Hz.
Qed.

(** The collection after an update, with the identifier it used. *)
Lemma patch_collection_parsed :
  collection (snd (patch_tourist_spot sv id req w)) = collection w
  \/ exists oid,
       ObjectId id = Some oid
       /\ collection (snd (patch_tourist_spot sv id req w))
          = fst (update_first (filter_of oid) updateDoc (collection w)).
Proof.
  destruct (patch_cases sv id req)
    as [H|[[oid [e [Hid [Hex He]]]]|[oid [Hb [Hid Hc]]]]].
  - left. now rewrite (patch_without_call sv id req w H).
  - left. now rewrite (patch_cleanup_fails sv id req w oid e Hid Hex He).
  - right. exists oid. split; [exact Hid|].
    now rewrite (patch_reaches_update sv id req w oid Hb Hid Hc).
Qed.

Lemma update_first_keeps_others (oid : value) (d : doc) (c : list doc) :
  In d c -> lookup "_id" d <> Some oid ->
  In d (fst (update_first (filter_of oid) updateDoc c)).
Proof.
  intros Hin Hne. induction c as [|d0 c IH]; cbn [update_first]; [exact Hin|].
  destruct (matches (filter_of oid) d0) eqn:Hd0; cbn [fst].
  - destruct Hin as [->|Hin]; [|now right].
    apply matches_id_iff in Hd0. contradiction.
  - destruct (update_first _ _ c) as [r n]. cbn [fst] in *.
    destruct Hin as [->|Hin]; [now left|right; auto].
Qed.

(** X16.  Whatever its outcome, an update keeps the number, the order and
    the [_id] of the documents, and a document whose [_id] is not the
    identifier of the request stays as it is. *)
Theorem update_keeps_ids :
  map (lookup "_id") (collection (snd (patch_tourist_spot sv id req w)))
  = map (lookup "_id") (collection w)
  /\ (forall oid d, ObjectId id = Some oid -> In d (collection w) ->
        lookup "_id" d <> Some oid ->
        In d (collection (snd (patch_tourist_spot sv id req w)))).
Proof.
  split.
  - destruct patch_collection_parsed as [E|[oid [_ E]]]; rewrite E; auto.
    apply update_first_map. intros d. apply apply_set_other, id_not_updated.
  - intros oid d Hid Hin Hne.
    destruct patch_collection_parsed as [E|[oid' [Hid' E]]]; rewrite E; auto.
    assert (oid' = oid) by congruence. subst oid'.
    now apply update_first_keeps_others.
Qed.

(** X17.  An answered update whose body has a truthy [imgHostingInfo]
    leaves it, as sent, in the document that has the identifier. *)
Theorem update_replaces_image (r : response) (w' : world) (oid : value)
    (d : doc) :
  patch_tourist_spot sv id req w = (Responded r, w') ->
  ObjectId id = Some oid ->
  List.find (matches (filter_of oid)) (collection w) = Some d ->
  truthy (get "imgHostingInfo" (body req)) = true ->
  exists d',
    List.find (matches (filter_of oid)) (collection w') = Some d'
    /\ lookup "imgHostingInfo" d' = Some (get "imgHostingInfo" (body req)).
Proof.
  intros H Hid Hd Himg.
  destruct (patch_responded _ _ _ _ _ _ H) as [Hb [Hc _]].
  rewrite (patch_reaches_update sv id req w oid Hb Hid Hc) in H.
  injection H as _ <-. cbn [collection].
  exists (apply_set updateDoc d). split.
  - rewrite update_first_find, Hd; [reflexivity|].
    intros d0. apply matches_id_apply_set.
  - rewrite apply_set_updateFields, lookup_assign_listed.
    + rewrite stored_fields_lookup, updateFields_eq, Himg.
      cbn [fields_of]. rewrite lookup_img_last. cbn [option_map].
      destruct (get "imgHostingInfo" (body req)); try reflexivity;
        discriminate.
    + rewrite stored_fields_keys. apply updateFields_NoDup.
    + rewrite stored_fields_keys, updateFields_keys, Himg.
      apply in_or_app. right. now left.
Qed.


End UpdateFurther.

Lemma update_again_500_witness :
  fst (patch_tourist_spot sample_services reef_id
         (mkRequest PATCH ["tourist-spot"; reef_id]
            (obj [("spot_name", JStr "Atoll")]) JUndefined)
         (mkWorld
            [apply_set
               (obj [("$set", updateFields (obj [("spot_name", JStr "Atoll")]))])
               reef] 1
            [DbUpdateOne (obj [("_id", JOid reef_id)])
               (obj [("$set",
                      updateFields (obj [("spot_name", JStr "Atoll")]))])]))
  = json 500 (obj [("success", JBool false);
                   ("message", JStr "Failed to update this document data")]).
Proof.
  apply (update_again_500 sample_services reef_id
           (mkRequest PATCH ["tourist-spot"; reef_id]
              (obj [("spot_name", JStr "Atoll")]) JUndefined)
           reef_world
           (mkResponse 200
              (obj [("success", JBool true);
                    ("message", JStr "Tourist spot updated successfully")])
              NoCookie)).
  reflexivity.
Defined.

Lemma update_keeps_ids_witness :
  let after := patch_tourist_spot sample_services reef_id
                 (mkRequest PATCH ["tourist-spot"; reef_id]
                    (obj [("spot_name", JStr "Atoll");
                          ("_id", JStr "mine")]) JUndefined) coast_world in
  map (lookup "_id") (collection (snd after))
  = map (lookup "_id") (collection coast_world)
  /\ In dune (collection (snd after)).
Proof.
  intros after.
  destruct (update_keeps_ids sample_services reef_id
              (mkRequest PATCH ["tourist-spot"; reef_id]
                 (obj [("spot_name", JStr "Atoll"); ("_id", JStr "mine")])
                 JUndefined) coast_world) as [H1 H2].
  split; [exact H1|].
  apply (H2 (JOid reef_id) dune eq_refl).
  - right. left. reflexivity.
  - discriminate.
Defined.

Lemma update_replaces_image_witness :
  let img := obj [("url", JStr "https://img.example/atoll.png");
                  ("public_id", JStr "img456")] in
  let req := mkRequest PATCH ["tourist-spot"; reef_id]
               (obj [("spot_name", JStr "Atoll"); ("imgHostingInfo", img)])
               JUndefined in
  exists d',
    List.find (matches (obj [("_id", JOid reef_id)]))
      (collection (snd (patch_tourist_spot sample_services reef_id req
                          reef_world)))
    = Some d'
    /\ lookup "imgHostingInfo" d' = Some img.
Proof.
  intros img req.
  apply (update_replaces_image sample_services reef_id req reef_world
           (mkResponse 200
              (obj [("success", JBool true);
                    ("message", JStr "Tourist spot updated successfully")])
              NoCookie)
           (snd (patch_tourist_spot sample_services reef_id req reef_world))
           (JOid reef_id) reef); reflexivity.
Defined.


(** ** Every route at once *)

(** Splits the goal on a scrutinee that has no case analysis inside. *)
Ltac break_match :=
  match goal with
  | |- context [match ?x with _ => _ end] =>
      lazymatch x with
      | context [match _ with _ => _ end] => fail
      | _ => destruct x eqn:?
      end
  end.

Ltac run_all_handlers :=
  cbv beta iota zeta delta
    [handle post_jwt post_jwt_logout verifyToken get_root get_tourist_spots
     get_user_tourist_spots get_tourist_spot post_tourist_spot
     delete_tourist_spot patch_tourist_spot try_next bind ret throw respond
     new_ObjectId findOne find insertOne deleteOne updateOne destroy].

(** X19.  Only the owner listing looks at the session: on every other
    route, creation, update and deletion included, a request is handled
    the same whatever its cookies. *)
Theorem session_only_for_owner_listing (sv : services) (req : request)
    (c' : value) (w : world) :
  (forall email, route (method req) (path req) <> Some (EpListByOwner email)) ->
  app sv (with_cookies req c') w = app sv req w.
Proof.
  intros Hr. unfold app, with_cookies. cbn [method path].
  destruct (route (method req) (path req))
    as [[ | | | | email | id | | id | id]|]; try reflexivity.
  exfalso. now apply (Hr email).
Qed.

Lemma session_only_for_owner_listing_witness :
  app sample_services
    (with_cookies
       (mkRequest DELETE ["tourist-spot"; reef_id] JUndefined JUndefined)
       (session "forged")) reef_world
  = app sample_services
      (mkRequest DELETE ["tourist-spot"; reef_id] JUndefined JUndefined)
      reef_world.
Proof.
  apply (session_only_for_owner_listing sample_services
           (mkRequest DELETE ["tourist-spot"; reef_id] JUndefined JUndefined)
           (session "forged") reef_world).
  intros email. discriminate.
Defined.

Lemma route_param_not_empty (m : http_method) (p : list string)
    (email : string) :
  route m p = Some (EpListByOwner email) -> (email =? "") = false.
Proof. intros H. now destruct (route_owner_email _ _ _ H) as [_ [_ He]]. Qed.

(** X20.  A response that a route handler sends has status 200, 201,
    401, 403, 404 or 500; the 400 of the owner listing is never sent, its
    [:email] being a segment that is not empty.  (The answers of the
    middleware before the routes and of Express after [next(err)] are
    not sent by a route handler.) *)
Theorem app_statuses (sv : services) (req : request) (w w' : world)
    (r : response) :
  app sv req w = (Responded r, w') ->
  In (status r) [200; 201; 401; 403; 404; 500].
Proof.
  unfold app.
  destruct (route (method req) (path req))
    as [[ | | | | email | id | | id | id]|] eqn:Hr; [ | | | | | | | | |discriminate].
  5: { apply route_param_not_empty in Hr.
       run_all_handlers.
       change (truthy (JStr email)) with (negb (email =? "")). rewrite Hr.
       cbn [negb]. repeat break_match; intros H;
       first [discriminate H
             | injection H as H _; subst r; cbn [status In]; auto 10]. }
  all: run_all_handlers; repeat break_match; intros H;
    first [discriminate H
          | injection H as H _; subst r; cbn [status In]; auto 10].
Qed.

Lemma app_statuses_witness :
  In (status (mkResponse 404
                (JObj [("success", JStr "No data found to delete")]) NoCookie))
    [200; 201; 401; 403; 404; 500].
Proof.
  apply (app_statuses sample_services
           (mkRequest DELETE ["tourist-spot"; reef_id] JUndefined JUndefined)
           empty_world
           (mkWorld [] 0 [DbFindOne (obj [("_id", JOid reef_id)]);
                          DbDeleteOne (obj [("_id", JOid reef_id)])])).
  reflexivity.
Defined.

(** X21.  A response that a route handler sends carries [success] as a
    boolean that is [true] exactly on a status below 300, with two
    exceptions: the text of GET / and the 404 of the deletion, whose body
    is [{success: "No data found to delete"}].  (An error handed to
    [next] is not answered by a route handler.) *)
Theorem handler_envelope (sv : services) (req : request) (w w' : world)
    (r : response) :
  app sv req w = (Responded r, w') ->
  success_matches_status r = true
  \/ route (method req) (path req) = Some EpRoot
  \/ (exists id,
        route (method req) (path req) = Some (EpDelete id)
        /\ r = mkResponse 404
                 (JObj [("success", JStr "No data found to delete")])
                 NoCookie).
Proof.
  unfold app.
  destruct (route (method req) (path req))
    as [[ | | | | email | id | | id | id]|] eqn:Hr;
    [ | | intros _; right; now left | | | | | | |discriminate].
  7: { run_all_handlers; repeat break_match; intros H;
       first [discriminate H
             | injection H as H _; subst r;
               first [left; reflexivity
                     | right; right; exists id; split; reflexivity]]. }
  all: run_all_handlers; repeat break_match; intros H;
    first [discriminate H | injection H as H _; subst r; left; reflexivity].
Qed.

Lemma handler_envelope_witness :
  success_matches_status
    (mkResponse 404 (obj [("success", JBool false);
                          ("message", JStr "No data found")]) NoCookie)
  = true.
Proof.
  destruct (handler_envelope sample_services
              (mkRequest GET ["tourist-spot"; "000000000000000000000007"]
                 JUndefined JUndefined)
              coast_world
              (record (DbFindOne (obj [("_id", JOid "000000000000000000000007")]))
                 coast_world)
              (mkResponse 404 (obj [("success", JBool false);
                                    ("message", JStr "No data found")])
                 NoCookie) eq_refl) as [H|[H|[id [H _]]]].
  - exact H.
  - discriminate H.
  - discriminate H.
Defined.

(** X22.  A response sets a cookie only on POST /jwt: the cookie is
    [token], its value the token that [jwt.sign] returned for the body,
    not empty, and the status is 200.  A response clears a cookie only on
    POST /jwt-logout, and it is [token]. *)
Theorem cookie_only_from_auth (sv : services) (req : request) (w w' : world)
    (r : response) :
  app sv req w = (Responded r, w') ->
  match cookie r with
  | NoCookie => True
  | SetCookie n t _ =>
      route (method req) (path req) = Some EpJwt /\ n = "token"
      /\ jwt_sign sv (body req) = Ok t /\ t <> "" /\ status r = 200
  | ClearCookie n _ =>
      route (method req) (path req) = Some EpJwtLogout /\ n = "token"
  end.
Proof.
  unfold app.
  destruct (route (method req) (path req))
    as [[ | | | | email | id | | id | id]|] eqn:Hr.
  1: { cbn [handle]. unfold post_jwt.
       destruct (negb (truthy (body req))); [intros [= <- _]; exact I|].
       destruct (jwt_sign sv (body req)) as [token|e]; [|discriminate].
       change (truthy (JStr token)) with (negb (token =? "")).
       destruct (token =? "") eqn:Et; cbn [negb].
       - intros [= <- _]. exact I.
       - intros [= <- _]. cbn [cookie status]. repeat split; auto.
         intros ->. discriminate. }
  1: { cbn [handle]. unfold post_jwt_logout. intros [= <- _].
       cbn [cookie]. auto. }
  8: discriminate.
  all: intros H;
    match type of H with
    | handle ?s ?ep ?q ?w0 = _ =>
        assert (E : sets_no_cookie (fst (handle s ep q w0)) = true)
          by (run_all_handlers; repeat break_match; reflexivity)
    end;
    rewrite H in E; cbn [fst sets_no_cookie] in E;
    destruct (cookie r); try discriminate; exact I.
Qed.

Lemma cookie_only_from_auth_witness :
  route POST ["jwt"] = Some EpJwt /\ "token" = "token"
  /\ jwt_sign sample_services (obj [("user", JStr "a@x.com")])
     = Ok "jwt:a@x.com"
  /\ "jwt:a@x.com" <> "" /\ 200 = 200.
Proof.
  apply (cookie_only_from_auth sample_services
           (mkRequest POST ["jwt"] (obj [("user", JStr "a@x.com")]) JUndefined)
           empty_world empty_world
           (mkResponse 200 (obj [("success", JBool true)])
              (SetCookie "token" "jwt:a@x.com"
                 (obj [("httpOnly", JBool true); ("secure", JBool true);
                       ("sameSite", JStr "none")])))).
  reflexivity.
Defined.

Lemma reads_only_refl (w : world) : reads_only w w.
Proof.
  repeat split. exists []. rewrite app_nil_r. repeat split. simpl. lia.
Qed.

Lemma reads_only_record (e : event) (w : world) :
  is_read e = true -> reads_only w (record e w).
Proof.
  intros He. repeat split. exists [e]. repeat split.
  - simpl. lia.
  - simpl. now rewrite He.
Qed.

Lemma route_get (p : list string) (ep : endpoint) :
  route GET p = Some ep ->
  ep = EpRoot \/ ep = EpListAll \/ (exists email, ep = EpListByOwner email)
  \/ exists id, ep = EpGetById id.
Proof.
  unfold route.
  destruct (strip_slash p) as [|a [|b [|c [|x q]]]];
    repeat match goal with
           | |- context [if ?t then _ else _] => destruct t
           end; try discriminate; intros [= <-]; eauto.
Qed.

(** X23.  A GET request changes neither the collection nor anything else
    of the world but the log, and makes at most one call, a [find] or a
    [findOne]: it never writes and never calls the uploader. *)
Theorem get_reads_only (sv : services) (req : request) (w : world) :
  method req = GET -> reads_only w (snd (app sv req w)).
Proof.
  intros Hm. unfold app. rewrite Hm.
  destruct (route GET (path req)) as [ep|] eqn:Hr; [|apply reads_only_refl].
  destruct (route_get _ _ Hr) as [->|[->|[[email ->]|[id ->]]]];
    run_all_handlers; repeat break_match; cbn [snd];
    first [apply reads_only_refl | now apply reads_only_record].
Qed.

Lemma get_reads_only_witness :
  reads_only coast_world
    (snd (app sample_services
            (mkRequest GET ["tourist-spot"; "user"; "b@x.com"] JUndefined
               (session "jwt:b@x.com")) coast_world)).
Proof.
  apply (get_reads_only sample_services
           (mkRequest GET ["tourist-spot"; "user"; "b@x.com"] JUndefined
              (session "jwt:b@x.com")) coast_world).
  reflexivity.
Defined.

(** ** From one request to the next *)

Lemma route_owner (email : string) :
  email <> "" ->
  route GET ["tourist-spot"; "user"; email] = Some (EpListByOwner email).
Proof.
  intros Hne.
  assert (E : (email =? "") = false).
  { destruct (email =? "") eqn:E; [|reflexivity].
    apply String.eqb_eq in E. contradiction. }
  unfold route. cbn [strip_slash]. rewrite E.
  change (seg_is "tourist-spot" "tourist-spot") with true.
  change (seg_is "user" "user") with true.
  cbn [andb negb]. now rewrite E.
Qed.

(** X24.  The cookie that POST /jwt sets is the one the guard reads: sent
    back as it was set, with a token that verifies to the [user] of the
    path, it opens the owner listing, which answers 200 or 404 and not
    403. *)
Theorem login_cookie_opens_guard (sv : services) (claim c0 b decoded o : value)
    (n t email : string) (w w1 w2 : world) (r : response) :
  app sv (mkRequest POST ["jwt"] claim c0) w = (Responded r, w1) ->
  cookie r = SetCookie n t o ->
  jwt_verify sv (JStr t) = Ok decoded ->
  get "user" decoded = JStr email -> email <> "" ->
  let listing := app sv (mkRequest GET ["tourist-spot"; "user"; email] b
                           (obj [(n, JStr t)])) w2 in
  status_of (fst listing) = Some 200 \/ status_of (fst listing) = Some 404.
Proof.
  intros Hlogin Hcookie Hv Hu Hne listing.
  assert (Hn : n = "token" /\ t <> "").
  { revert Hlogin. unfold app. cbn [method path].
    change (route POST ["jwt"]) with (Some EpJwt). cbn [handle].
    unfold post_jwt. cbn [body].
    destruct (negb (truthy claim)).
    { intros [= <- _]. discriminate. }
    destruct (jwt_sign sv claim) as [token|e]; [|discriminate].
    change (truthy (JStr token)) with (negb (token =? "")).
    destruct (token =? "") eqn:Et; cbn [negb]; intros [= <- _].
    - discriminate.
    - cbn [cookie] in Hcookie. injection Hcookie as <- <- _.
      split; [reflexivity|]. intros ->. discriminate. }
  destruct Hn as [-> Ht]. subst listing.
  assert (Htok : get "token" (obj [("token", JStr t)]) = JStr t) by reflexivity.
  rewrite (owner_listing_run sv
             (mkRequest GET ["tourist-spot"; "user"; email] b
                (obj [("token", JStr t)])) w2 email (route_owner email Hne)
             decoded).
  - cbn [fst]. destruct (List.filter _ (collection w2)); auto.
  - cbn [cookies]. rewrite Htok.
    change (truthy (JStr t)) with (negb (t =? "")).
    destruct (t =? "") eqn:E; [|reflexivity].
    apply String.eqb_eq in E. contradiction.
  - cbn [cookies]. now rewrite Htok.
  - exact Hu.
Qed.

Lemma login_cookie_opens_guard_witness :
  let listing := app sample_services
                   (mkRequest GET ["tourist-spot"; "user"; "b@x.com"]
                      JUndefined (obj [("token", JStr "jwt:b@x.com")]))
                   coast_world in
  status_of (fst listing) = Some 200 \/ status_of (fst listing) = Some 404.
Proof.
  apply (login_cookie_opens_guard sample_services
           (obj [("user", JStr "b@x.com")]) JUndefined JUndefined
           (obj [("user", JStr "b@x.com")])
           (obj [("httpOnly", JBool true); ("secure", JBool true);
                 ("sameSite", JStr "none")])
           "token" "jwt:b@x.com" "b@x.com" empty_world empty_world coast_world
           (mkResponse 200 (obj [("success", JBool true)])
              (SetCookie "token" "jwt:b@x.com"
                 (obj [("httpOnly", JBool true); ("secure", JBool true);
                       ("sameSite", JStr "none")])))).
  - reflexivity.
  - reflexivity.
  - reflexivity.
  - reflexivity.
  - discriminate.
Defined.

Lemma remove_first_app_new (f : value) (c : list doc) (d : doc) :
  existsb (matches f) c = false -> matches f d = true ->
  remove_first f (c ++ [d]) = (c, 1%Z).
Proof.
  intros Hc Hd. induction c as [|d0 c IH]; cbn [List.app remove_first].
  - now rewrite Hd.
  - cbn [existsb] in Hc. apply orb_false_iff in Hc. destruct Hc as [-> Hc].
    now rewrite (IH Hc).
Qed.

Lemma find_absent (f : value) (c : list doc) :
  existsb (matches f) c = false -> List.find (matches f) c = None.
Proof.
  induction c as [|d0 c IH]; cbn [existsb List.find]; auto.
  intros H. apply orb_false_iff in H. destruct H as [-> H]. auto.
Qed.

Lemma stored_public_id_new (i : value) (fields : list (string * value)) :
  stored_public_id (JObj (("_id", i) :: fields))
  = stored_public_id (JObj fields).
Proof. reflexivity. Qed.

(** X25.  When a body without [_id] whose cleanup cannot fail is created
    (201), the deletion of the [id] of the response answers 200 and puts
    the collection back as it was before the creation, and the lookup of
    that [id] then answers 404. *)
Theorem create_delete_getById (sv : services) (fields : list (string * value))
    (ck b c : value) (w w1 : world) (r : response) :
  lookup "_id" fields = None ->
  delete_cleanup_ok sv (JObj fields) = true ->
  app sv (mkRequest POST ["tourist-spot"] (JObj fields) ck) w
  = (Responded r, w1) ->
  let id := toHexString (get "id" (res_body r)) in
  let deleted := app sv (mkRequest DELETE ["tourist-spot"; id] b c) w1 in
  status r = 201
  /\ fst deleted
     = json 200 (obj [("success", JBool true);
                      ("message", JStr "Tourist spot deleted successfully")])
  /\ collection (snd deleted) = collection w
  /\ fst (app sv (mkRequest GET ["tourist-spot"; id] b c) (snd deleted))
     = json 404 (obj [("success", JBool false);
                      ("message", JStr "No data found")]).
Proof.
  intros Hno Hc. rewrite create_run. cbn [get]. rewrite Hno. cbn [nullish].
  rewrite (createPk_truthy (pk_counter w)).
  rewrite (remove_field_absent _ _ Hno).
  set (oid := createPk (pk_counter w)).
  destruct (existsb (has_id oid) (collection w)) eqn:Hfree; [discriminate|].
  unfold oid at 1. rewrite createPk_not_array.
  intros [= <- <-]. cbn [status res_body].
  cbv zeta. change (get "id" _) with oid.
  pose proof (ObjectId_createPk (pk_counter w)) as Hid. fold oid in Hid.
  rewrite <- existsb_has_id in Hfree.
  assert (Hnew : matches (obj [("_id", oid)]) (("_id", oid) :: fields) = true)
    by (rewrite matches_id; apply has_id_head).
  assert (Hdel : app sv (mkRequest DELETE ["tourist-spot"; toHexString oid] b c)
                   (mkWorld (collection w ++ [("_id", oid) :: fields])
                      (pk_counter w + 1) (log w ++ [DbInsertOne (JObj fields)]))
                 = (json 200
                      (obj [("success", JBool true);
                            ("message",
                             JStr "Tourist spot deleted successfully")]),
                    mkWorld (collection w) (pk_counter w + 1)
                      ((log w ++ [DbInsertOne (JObj fields)])
                       ++ [DbFindOne (obj [("_id", oid)])]
                       ++ (if truthy (stored_public_id (JObj fields))
                           then [CloudDestroy (stored_public_id (JObj fields))]
                           else [])
                       ++ [DbDeleteOne (obj [("_id", oid)])]))).
  { rewrite (delete_run sv (toHexString oid) oid b c _ Hid).
    cbn [collection pk_counter log]. unfold first_match.
    pose proof (find_app_new _ _ _ Hfree Hnew) as Hfound.
    pose proof (remove_first_app_new _ _ _ Hfree Hnew) as Hremoved.
    unfold doc in *. rewrite Hfound, stored_public_id_new, Hremoved.
    cbn [fst snd].
    unfold delete_cleanup_ok in Hc.
    destruct (truthy (stored_public_id (JObj fields))); cbn [negb orb] in Hc.
    - destruct (cloud_destroy sv (stored_public_id (JObj fields)));
        [reflexivity|discriminate].
    - reflexivity. }
  rewrite Hdel. cbn [fst snd collection].
  repeat split.
  unfold app. cbn [method path].
  rewrite (route_by_id GET _ (ObjectId_not_empty _ _ Hid)). cbn [handle].
  rewrite (get_tourist_spot_run _ oid _ Hid). cbn [collection fst].
  now rewrite (find_absent _ _ Hfree).
Qed.

Lemma create_delete_getById_witness :
  let r := mkResponse 201
             (obj [("success", JBool true);
                   ("message", JStr "Tourist spot added successfully");
                   ("id", JOid "000000000000000000000001")]) NoCookie in
  let w1 := mkWorld [reef; dune] 2
              [DbInsertOne (JObj [("spot_name", JStr "Dune");
                                  ("userEmail", JStr "b@x.com")])] in
  let deleted := app sample_services
                   (mkRequest DELETE
                      ["tourist-spot"; "000000000000000000000001"]
                      JUndefined JUndefined) w1 in
  status r = 201
  /\ fst deleted
     = json 200 (obj [("success", JBool true);
                      ("message", JStr "Tourist spot deleted successfully")])
  /\ collection (snd deleted) = collection reef_world
  /\ fst (app sample_services
            (mkRequest GET ["tourist-spot"; "000000000000000000000001"]
               JUndefined JUndefined) (snd deleted))
     = json 404 (obj [("success", JBool false);
                      ("message", JStr "No data found")]).
Proof.
  intros r w1 deleted.
  apply (create_delete_getById sample_services
           [("spot_name", JStr "Dune"); ("userEmail", JStr "b@x.com")]
           JUndefined JUndefined JUndefined reef_world w1 r); reflexivity.
Defined.

(** ** Requests that get no answer *)

(** X26.  A routed request is answered or its error handed to [next],
    with two exceptions, which leave the world untouched: POST /jwt with
    a truthy body that [jwt.sign] refuses, where the error is only logged
    and nothing is sent, and PATCH with a body that is null or undefined,
    where the destructuring throws outside the [try]. *)
Theorem app_concludes (sv : services) (req : request) (w : world)
    (ep : endpoint) :
  route (method req) (path req) = Some ep ->
  concluded (fst (app sv req w)) = true
  \/ (ep = EpJwt /\ truthy (body req) = true
      /\ (exists e, jwt_sign sv (body req) = Throw e)
      /\ app sv req w = (NoResponse, w))
  \/ (exists id, ep = EpUpdate id /\ nullish (body req) = true
                 /\ exists e, app sv req w = (Uncaught e, w)).
Proof.
  intros Hr. unfold app. rewrite Hr.
  destruct ep as [ | | | | email | id | | id | id].
  1: { cbn [handle]. unfold post_jwt.
       destruct (truthy (body req)) eqn:Hb; cbn [negb]; [|now left].
       destruct (jwt_sign sv (body req)) as [token|e] eqn:Hs.
       - left. destruct (negb (truthy (JStr token))); reflexivity.
       - right. left. repeat split; eauto. }
  8: { cbn [handle]. unfold patch_tourist_spot.
       destruct (nullish (body req)) eqn:Hb.
       - right. right. exists id. repeat split. eauto.
       - left. run_all_handlers. repeat break_match; reflexivity. }
  all: left; run_all_handlers; repeat break_match; reflexivity.
Qed.

Lemma app_concludes_witness :
  concluded (fst (app sample_services
                    (mkRequest PATCH ["tourist-spot"; reef_id] JUndefined
                       JUndefined) reef_world)) = true
  \/ (EpUpdate reef_id = EpJwt /\ truthy JUndefined = true
      /\ (exists e, jwt_sign sample_services JUndefined = Throw e)
      /\ app sample_services
           (mkRequest PATCH ["tourist-spot"; reef_id] JUndefined JUndefined)
           reef_world
         = (NoResponse, reef_world))
  \/ (exists id, EpUpdate reef_id = EpUpdate id /\ nullish JUndefined = true
                 /\ exists e,
                      app sample_services
                        (mkRequest PATCH ["tourist-spot"; reef_id] JUndefined
                           JUndefined) reef_world
                      = (Uncaught e, reef_world)).
Proof.
  apply (app_concludes sample_services
           (mkRequest PATCH ["tourist-spot"; reef_id] JUndefined JUndefined)
           reef_world (EpUpdate reef_id)).
  reflexivity.
Defined.
